(** * ValueMenu: the menu extraction engine of [scraper/menu_scraper.py]

    A shallow embedding of the scraper's extraction functions and the
    properties its specification states about them.

    Text is modelled as [string] over the 8-bit code points 0..255, read as
    Latin-1, where Python's [str.strip()], [str.lower()], and the regular
    expression classes [\s], [\d] and [.] behave exactly as the character
    classes defined below. The parsed document is a tree of tags and text
    nodes, as BeautifulSoup builds it. *)

From Stdlib Require Import String Ascii List Bool Arith Lia.
Import ListNotations.
#[local] Set Warnings "-register-all".
Open Scope list_scope.
Open Scope string_scope.
Open Scope nat_scope.

(** ** Character classes *)

Module Chars.

(** [\d]: the decimal digits. *)
Definition is_digit (c : ascii) : bool :=
  let n := nat_of_ascii c in (48 <=? n) && (n <=? 57).

(** [str.isspace] and [\s]: tab, newline, vertical tab, form feed, carriage
    return, the four separators 0x1c..0x1f, space, NEL and no-break space. *)
Definition is_space (c : ascii) : bool :=
  let n := nat_of_ascii c in
  ((9 <=? n) && (n <=? 13)) || ((28 <=? n) && (n <=? 32))
  || (n =? 133) || (n =? 160).

(** The character set of [strip(' -')]. *)
Definition is_sep (c : ascii) : bool :=
  Ascii.eqb c " " || Ascii.eqb c "-".

Definition is_dollar (c : ascii) : bool := Ascii.eqb c "$".

(** The line feed, the one character [.] does not match. *)
Definition is_newline (c : ascii) : bool := nat_of_ascii c =? 10.

(** [str.lower] on one code point: A-Z and the Latin-1 capitals. *)
Definition lower_char (c : ascii) : ascii :=
  let n := nat_of_ascii c in
  if ((65 <=? n) && (n <=? 90))
     || ((192 <=? n) && (n <=? 222) && negb (n =? 215))
  then ascii_of_nat (n + 32) else c.

End Chars.

(** ** Python string operations *)

Module Str.

Import Chars.

Definition is_empty (s : string) : bool :=
  match s with EmptyString => true | String _ _ => false end.

Fixpoint lower (s : string) : string :=
  match s with
  | EmptyString => EmptyString
  | String c r => String (lower_char c) (lower r)
  end.

(** [sub in s] *)
Fixpoint contains (sub s : string) : bool :=
  prefix sub s
  || match s with
     | EmptyString => false
     | String _ r => contains sub r
     end.

Fixpoint lstrip_by (p : ascii -> bool) (s : string) : string :=
  match s with
  | EmptyString => EmptyString
  | String c r => if p c then lstrip_by p r else s
  end.

Fixpoint rstrip_by (p : ascii -> bool) (s : string) : string :=
  match s with
  | EmptyString => EmptyString
  | String c r =>
      let r' := rstrip_by p r in
      if is_empty r' && p c then EmptyString else String c r'
  end.

Definition strip_by (p : ascii -> bool) (s : string) : string :=
  rstrip_by p (lstrip_by p s).

(** [s.strip()] *)
Definition strip (s : string) : string := strip_by is_space s.

(** [s.strip(' -')] *)
Definition strip_sep (s : string) : string := strip_by is_sep s.

(** [s[n:]] *)
Fixpoint drop (n : nat) (s : string) : string :=
  match n, s with
  | O, _ => s
  | S _, EmptyString => EmptyString
  | S k, String _ r => drop k r
  end.

(** [s.split(sep)] for a non-empty [sep]: the pieces between the successive
    non-overlapping occurrences of [sep], scanning from the left. [skip]
    counts the characters of an occurrence still to be passed over and [cur]
    is the piece under construction. *)
Fixpoint split_go (sep : string) (skip : nat) (cur s : string) : list string :=
  match s with
  | EmptyString => [cur]
  | String c r =>
      match skip with
      | S k => split_go sep k cur r
      | O =>
          if prefix sep s
          then cur :: split_go sep (String.length sep - 1) EmptyString r
          else split_go sep 0 (cur ++ String c EmptyString) r
      end
  end.

Definition split (sep s : string) : list string := split_go sep 0 EmptyString s.

(** [sep.join(parts)] *)
Fixpoint join (sep : string) (parts : list string) : string :=
  match parts with
  | [] => EmptyString
  | [p] => p
  | p :: rest => p ++ sep ++ join sep rest
  end.

Fixpoint concat_all (parts : list string) : string :=
  match parts with
  | [] => EmptyString
  | p :: rest => p ++ concat_all rest
  end.

End Str.

(** ** The two regular expressions of the scraper *)

Module Re.

Import Chars Str.

(** The longest run of digits at the head of [s], and what follows it. *)
Fixpoint span_digits (s : string) : string * string :=
  match s with
  | EmptyString => (EmptyString, EmptyString)
  | String c r =>
      if is_digit c
      then let (ds, rest) := span_digits r in (String c ds, rest)
      else (EmptyString, s)
  end.

(** [\$\d+(?:\.\d+)?] anchored at the head of [s]: the matched text. Both
    repetitions are greedy, and since the optional group may match nothing
    no backtracking into [\d+] ever changes the outcome. *)
Definition price_here (s : string) : option string :=
  match s with
  | String c r =>
      if is_dollar c then
        let (ds, rest) := span_digits r in
        if is_empty ds then None
        else
          match rest with
          | String d rest' =>
              if Ascii.eqb d "."
              then
                let (fs, _) := span_digits rest' in
                if is_empty fs then Some (String c ds)
                else Some (String c ds ++ String d fs)
              else Some (String c ds)
          | EmptyString => Some (String c ds)
          end
      else None
  | EmptyString => None
  end.

(** [re.search(r'\$\d+(?:\.\d+)?', s)]: the leftmost match, as its start
    offset and [group(0)]. *)
Fixpoint search_price (s : string) : option (nat * string) :=
  match price_here s with
  | Some m => Some (0, m)
  | None =>
      match s with
      | EmptyString => None
      | String _ r =>
          match search_price r with
          | Some (i, m) => Some (S i, m)
          | None => None
          end
      end
  end.

(** [match.end()] *)
Definition match_end (m : nat * string) : nat := fst m + String.length (snd m).

(** [re.sub(r'\$\d+(?:\.\d+)?', '', s)]: every non-overlapping match, found
    from the left, is removed. *)
Fixpoint sub_price_go (skip : nat) (s : string) : string :=
  match s with
  | EmptyString => EmptyString
  | String c r =>
      match skip with
      | S k => sub_price_go k r
      | O =>
          match price_here s with
          | Some m => sub_price_go (String.length m - 1) r
          | None => String c (sub_price_go 0 r)
          end
      end
  end.

Definition sub_price (s : string) : string := sub_price_go 0 s.

(** [\s*\$] anchored at the head of [s]. *)
Definition spaces_dollar_here (s : string) : bool :=
  match lstrip_by is_space s with
  | String c _ => is_dollar c
  | EmptyString => false
  end.

(** [re.search(r'^(.*?)\s*\$', s)]: [group(1)] of the match, if any. The
    lazy group is tried at lengths 0, 1, 2, ... and can never extend over a
    line feed; the anchor rules out every start offset but 0. *)
Fixpoint search_name (s : string) : option string :=
  if spaces_dollar_here s then Some EmptyString
  else
    match s with
    | EmptyString => None
    | String c r =>
        if is_newline c then None
        else
          match search_name r with
          | Some g => Some (String c g)
          | None => None
          end
    end.

End Re.


(** ** The parsed document *)

Module Dom.

Import Chars Str.

(** A BeautifulSoup tree: strings, and tags with their name, the tokens of
    their [class] attribute (none when the attribute is absent) and their
    contents. The soup itself is the tag that holds the top-level nodes.
    A string is either plain character data ([Text]: NavigableString and
    CData), or one of the strings that [find_all(string=True)] returns and
    that [get_text()] of an element leaves out ([Special]: comments,
    doctypes, declarations, processing instructions, and the text of
    script, style and template elements). *)
Inductive node : Type :=
| Text (s : string)
| Special (s : string)
| Tag (name : string) (classes : list string) (contents : list node).

(** Induction over a tree whose tags hold lists of trees. *)
Fixpoint node_induction (P : node -> Prop)
    (HText : forall s, P (Text s))
    (HSpecial : forall s, P (Special s))
    (HTag : forall name classes contents,
        Forall P contents -> P (Tag name classes contents))
    (n : node) : P n :=
  match n with
  | Text s => HText s
  | Special s => HSpecial s
  | Tag name classes contents =>
      HTag name classes contents
        ((fix all (l : list node) : Forall P l :=
            match l with
            | [] => Forall_nil P
            | c :: r =>
                Forall_cons c (node_induction P HText HSpecial HTag c) (all r)
            end) contents)
  end.

(** [n.descendants]: every node below [n], in document order. *)
Fixpoint descendants (n : node) : list node :=
  match n with
  | Text _ | Special _ => []
  | Tag _ _ cs => flat_map (fun c => c :: descendants c) cs
  end.

(** [n.find_all(...)] with the test [p]: a walk of the tree that keeps the
    nodes below [n] passing [p], a parent before its own contents. *)
Fixpoint find_all (p : node -> bool) (n : node) : list node :=
  match n with
  | Text _ | Special _ => []
  | Tag _ _ cs =>
      flat_map (fun c => (if p c then [c] else []) ++ find_all p c)%list cs
  end.

(** [n.find(...)]: the first hit of [find_all]. *)
Definition find (p : node -> bool) (n : node) : option node :=
  hd_error (find_all p n).

(** [n.find_all(string=True)], as strings: every string of [n], of either
    kind, in document order. *)
Fixpoint all_strings (n : node) : list string :=
  match n with
  | Text s | Special s => [s]
  | Tag _ _ cs => flat_map all_strings cs
  end.

(** The strings [get_text] joins: the plain ones, in document order. *)
Fixpoint visible_strings (n : node) : list string :=
  match n with
  | Text s => [s]
  | Special _ => []
  | Tag _ _ cs => flat_map visible_strings cs
  end.

(** [n.get_text()], for the elements the scraper calls it on (div, span,
    p, section, headings, strong, b). *)
Definition get_text (n : node) : string := concat_all (visible_strings n).

(** The depth to which [n.string] calls itself: a tag with a single tag
    as its contents asks that tag for its [string] in turn. *)
Fixpoint string_calls (n : node) : nat :=
  match n with
  | Text _ | Special _ => 0
  | Tag _ _ [c] => S (string_calls c)
  | Tag _ _ _ => 1
  end.

Definition has_name (names : list string) (n : node) : bool :=
  match n with
  | Text _ | Special _ => false
  | Tag nm _ _ => existsb (String.eqb nm) names
  end.

(** A [class_=f] filter: BeautifulSoup offers [f] each token of the class
    attribute and then the tokens joined by spaces. *)
Definition class_matches (f : string -> bool) (n : node) : bool :=
  match n with
  | Text _ | Special _ => false
  | Tag _ cls _ => existsb f cls || f (join " " cls)
  end.

(** [lambda x: x and (k1 in x.lower() or k2 in x.lower())] *)
Definition class_has (k1 k2 : string) (x : string) : bool :=
  negb (is_empty x) && (contains k1 (lower x) || contains k2 (lower x)).

End Dom.

(** ** Records *)

Module MenuItem.
Record t : Type := mk { name : string; price : string; description : string }.
End MenuItem.

Module Restaurant.
Record t : Type :=
  mk { name : string; website : string; cuisine : string; menu_url : string }.
End Restaurant.

Module Scraped.
Record t : Type :=
  mk { name : string; website : string; cuisine : string; menu_url : string;
       error : option string; menu_items : list MenuItem.t }.
End Scraped.

(** ** The scraper *)

Module Scraper.

Import Chars Str Re Dom.

(** Python truthiness of a value that is [None] or a string. *)
Definition truthy (o : option string) : bool :=
  match o with
  | Some s => negb (is_empty s)
  | None => false
  end.

Definition is_nil {A : Type} (l : list A) : bool :=
  match l with [] => true | _ :: _ => false end.

Definition name_tags : list string :=
  ["h1"; "h2"; "h3"; "h4"; "h5"; "h6"; "strong"; "b"].

Fixpoint first_nonblank (texts : list string) : option string :=
  match texts with
  | [] => None
  | text :: rest =>
      if 0 <? String.length (strip text) then Some (strip text)
      else first_nonblank rest
  end.

Definition extract_name (item : node) : option string :=
  match find (has_name name_tags) item with
  | Some name_element => Some (strip (get_text name_element))
  | None => first_nonblank (all_strings item)
  end.

Fixpoint first_price (texts : list string) : option string :=
  match texts with
  | [] => None
  | text :: rest =>
      if contains "$" text then
        match search_price text with
        | Some price_match => Some (snd price_match)
        | None => first_price rest
        end
      else first_price rest
  end.

Definition extract_price (item : node) : option string :=
  first_price (all_strings item).

Definition extract_description (item : node) : string :=
  let text_content := strip (get_text item) in
  let description := strip (sub_price text_content) in
  match extract_name item with
  | Some name =>
      if negb (is_empty name) && String.eqb (lower description) (lower name)
      then EmptyString else description
  | None => description
  end.

(** The body of the loop over [potential_items[:10]]. *)
Definition structural_record (item : node) : list MenuItem.t :=
  let name := extract_name item in
  let price := extract_price item in
  let description := extract_description item in
  match name, price with
  | Some n, Some p =>
      if truthy name && truthy price then [MenuItem.mk n p description] else []
  | _, _ => []
  end.

Definition parse_menu_text (text : string) : option MenuItem.t :=
  match search_price text with
  | None => None
  | Some price_match =>
      let price := snd price_match in
      match search_name text with
      | Some group1 =>
          let name := strip group1 in
          let price_end := match_end price_match in
          let description :=
            if price_end <? String.length text
            then strip (drop price_end text) else EmptyString in
          Some (MenuItem.mk name price description)
      | None => None
      end
  end.

Definition parse_spenard_menu_item (text : string) : option MenuItem.t :=
  match search_price text with
  | None => None
  | Some price_match =>
      let price := snd price_match in
      let item_text := strip text in
      let parts := split price item_text in
      let name := strip_sep (nth 0 parts EmptyString) in
      let description :=
        if 1 <? List.length parts
        then strip_sep (nth 1 parts EmptyString) else EmptyString in
      let '(name, description) :=
        if is_empty description && contains " - " name then
          let name_parts := split " - " name in
          (strip (nth 0 name_parts EmptyString),
           if 1 <? List.length name_parts
           then strip (join " - " (tl name_parts)) else description)
        else (name, description) in
      let name := strip name in
      let description := strip description in
      if is_empty name then None
      else Some (MenuItem.mk name price description)
  end.

(** The loop over [soup.find_all(string=True)] shared by both strategies,
    with the parser [parse] of the strategy. *)
Definition text_scan (parse : string -> option MenuItem.t) (soup : node)
  : list MenuItem.t :=
  flat_map
    (fun text =>
       if contains "$" text && (0 <? String.length (strip text)) then
         match parse (strip text) with
         | Some item_data => [item_data]
         | None => []
         end
       else [])
    (all_strings soup).

Definition is_dish_div (n : node) : bool :=
  has_name ["div"] n && class_matches (class_has "dish" "menuitem") n.

(** The candidate elements of the Spenard Roadhouse strategy. *)
Definition spenard_dish_elements (soup : node) : list node :=
  let dish_elements := find_all is_dish_div soup in
  if is_nil dish_elements then
    let all_elements := find_all (has_name ["div"; "span"; "p"]) soup in
    filter
      (fun el => negb (is_empty (get_text el)) && contains "$" (get_text el))
      all_elements
  else dish_elements.

Definition extract_spenard_menu_items (soup : node) : list MenuItem.t :=
  let dish_elements := spenard_dish_elements soup in
  let menu_items :=
    flat_map
      (fun element =>
         let text := strip (get_text element) in
         if negb (is_empty text) && contains "$" text then
           match parse_spenard_menu_item text with
           | Some item_data => [item_data]
           | None => []
           end
         else [])
      dish_elements in
  if is_nil menu_items then text_scan parse_spenard_menu_item soup
  else menu_items.

Definition is_menu_div (n : node) : bool :=
  has_name ["div"] n && class_matches (class_has "menu" "item") n.

Definition is_dish_section (n : node) : bool :=
  has_name ["section"] n && class_matches (class_has "dish" "food") n.

(** [menu_divs + dish_sections] *)
Definition potential_items (soup : node) : list node :=
  (find_all is_menu_div soup ++ find_all is_dish_section soup)%list.

(** [potential_items[:10]], the blocks the extraction loop visits. *)
Definition structural_candidates (soup : node) : list node :=
  firstn 10 (potential_items soup).

(** What the loop over [potential_items[:10]] appends to [menu_items]. *)
Definition structural_records (soup : node) : list MenuItem.t :=
  flat_map structural_record (structural_candidates soup).

Definition placeholder : MenuItem.t :=
  MenuItem.mk "Menu item" "$10.00" "Please check website for current menu".

(** The blocks of the generic strategy that get to run, in order. *)
Inductive stage : Type := Structural | TextScan | Placeholder.

(** The generic strategy of [extract_menu_items], after the vendor test:
    [menu_items] is threaded through the three [if] blocks, and the blocks
    entered are logged. *)
Definition generic_run (soup : node) : list stage * list MenuItem.t :=
  let menu_items : list MenuItem.t := [] in
  let log : list stage := [] in
  let '(log, menu_items) :=
    if negb (is_nil (potential_items soup))
    then ((log ++ [Structural])%list,
          (menu_items ++ structural_records soup)%list)
    else (log, menu_items) in
  let '(log, menu_items) :=
    if is_nil menu_items
    then ((log ++ [TextScan])%list,
          (menu_items ++ text_scan parse_menu_text soup)%list)
    else (log, menu_items) in
  let '(log, menu_items) :=
    if is_nil menu_items
    then ((log ++ [Placeholder])%list, (menu_items ++ [placeholder])%list)
    else (log, menu_items) in
  (log, menu_items).

Definition is_spenard (restaurant_name : string) : bool :=
  contains "spenard roadhouse" (lower restaurant_name).

(** The list [extract_menu_items] returns, when it returns. *)
Definition extract_menu_items (soup : node) (restaurant_name : string)
  : list MenuItem.t :=
  if is_spenard restaurant_name then extract_spenard_menu_items soup
  else snd (generic_run soup).

(** Line 87, [soup.find_all('div', string=...)], whose result is not used:
    it reads [.string] of every div, and that read fails with a
    RecursionError when it calls itself more often than the interpreter's
    stack has room for, [stack_budget] calls. *)
Definition price_divs_raises (stack_budget : nat) (soup : node) : bool :=
  existsb (fun n => has_name ["div"] n && (stack_budget <? string_calls n))
    (descendants soup).

(** How a call of [extract_menu_items] ends. *)
Inductive outcome : Type :=
| Returned (menu_items : list MenuItem.t)
| Raised (message : string).

(** What [requests.get], [raise_for_status] and the parser hand back for a
    URL: the soup, or the message of the exception raised. *)
Inductive fetched : Type :=
| Page (soup : node)
| Failed (message : string).

Section Fetching.

Variable fetch : string -> fetched.

(** The room on the interpreter's stack when line 87 runs, and the text of
    the RecursionError. *)
Variable stack_budget : nat.
Variable recursion_error : string.

(** The call of [extract_menu_items] as [scrape_restaurant_menu] sees it:
    the vendor strategy returns at line 74; the generic strategy first
    passes line 87. *)
Definition extract_menu_items_outcome (soup : node) (restaurant_name : string)
  : outcome :=
  if is_spenard restaurant_name then Returned (extract_spenard_menu_items soup)
  else if price_divs_raises stack_budget soup then Raised recursion_error
  else Returned (snd (generic_run soup)).

Definition scrape_restaurant_menu (restaurant : Restaurant.t) : Scraped.t :=
  let name := Restaurant.name restaurant in
  let menu_url := Restaurant.menu_url restaurant in
  match fetch menu_url with
  | Page soup =>
      match extract_menu_items_outcome soup name with
      | Returned menu_items =>
          Scraped.mk name (Restaurant.website restaurant)
            (Restaurant.cuisine restaurant) menu_url None menu_items
      | Raised e =>
          Scraped.mk name (Restaurant.website restaurant)
            (Restaurant.cuisine restaurant) menu_url (Some e) []
      end
  | Failed e =>
      Scraped.mk name (Restaurant.website restaurant)
        (Restaurant.cuisine restaurant) menu_url (Some e) []
  end.

(** The loop of [scrape_all_restaurants] over the restaurants read. *)
Fixpoint scrape_all_restaurants (restaurants : list Restaurant.t)
  : list Scraped.t :=
  match restaurants with
  | [] => []
  | restaurant :: rest =>
      scrape_restaurant_menu restaurant :: scrape_all_restaurants rest
  end.

End Fetching.

End Scraper.

(** ** The specification's vocabulary *)

Module Spec.

Import Chars Str Dom Scraper.

Fixpoint all_digits (s : string) : bool :=
  match s with
  | EmptyString => true
  | String c r => is_digit c && all_digits r
  end.

(** [s] cut at its first full stop: what precedes it, and what follows it
    when there is one. *)
Fixpoint cut_at_dot (s : string) : string * option string :=
  match s with
  | EmptyString => (EmptyString, None)
  | String c r =>
      if Ascii.eqb c "." then (EmptyString, Some r)
      else let (a, b) := cut_at_dot r in (String c a, b)
  end.

(** The currency-token grammar: a dollar sign, one or more digits and an
    optional fraction, a full stop and digits whose number passes
    [frac_ok]. *)
Definition currency_token (frac_ok : nat -> bool) (s : string) : bool :=
  match s with
  | String c r =>
      is_dollar c &&
      (let (int_part, frac) := cut_at_dot r in
       negb (is_empty int_part) && all_digits int_part &&
       match frac with
       | None => true
       | Some fs => all_digits fs && frac_ok (String.length fs)
       end)
  | EmptyString => false
  end.

(** [$ digit+ (. digit digit)?] *)
Definition currency_token_two : string -> bool := currency_token (Nat.eqb 2).

(** [$ digit+ (. digit+)?] *)
Definition currency_token_any : string -> bool := currency_token (Nat.ltb 0).

(** A search key that is not empty and holds no space. *)
Fixpoint spaceless (k : string) : bool :=
  match k with
  | EmptyString => true
  | String c r => negb (Ascii.eqb c " ") && spaceless r
  end.

Definition plain_key (k : string) : bool := negb (is_empty k) && spaceless k.

(** [key] occurs in [name] up to letter case: some stretch of [name]
    lowercases to [key]. *)
Definition ci_substring (key name : string) : Prop :=
  exists pre mid post, name = pre ++ mid ++ post /\ lower mid = key.


(** A tag called [tag] one of whose class tokens contains [k1] or [k2] up
    to letter case. *)
Definition classed_tag (tag k1 k2 : string) (n : node) : Prop :=
  exists cls cs tok,
    n = Tag tag cls cs /\ In tok cls /\
    (ci_substring k1 tok \/ ci_substring k2 tok).

(** The vendor locator as the specification words it: the preferred scan
    ranges over div, span and p alike. *)
Definition worded_dish_elements (soup : node) : list node :=
  let preferred :=
    filter (fun n => has_name ["div"; "span"; "p"] n
                     && class_matches (class_has "dish" "menuitem") n)
      (descendants soup) in
  if is_nil preferred then
    filter (fun el => has_name ["div"; "span"; "p"] el
                      && contains "$" (get_text el))
      (descendants soup)
  else preferred.

End Spec.

(** ** Sample pages and fetchers *)

Module Samples.

Import Dom Scraper.

Definition page (top : list node) : node := Tag "[document]" [] top.

(** A page without any price. *)
Definition closed_page : node :=
  page [Tag "p" [] [Text "Closed for the season"]].

(** A page whose only priced text is a bare price. *)
Definition bare_price_page : node := page [Tag "p" [] [Text "$5.00"]].

(** A page with an empty menu block and a priced paragraph. *)
Definition rejected_block_page : node :=
  page [Tag "div" ["menu"] []; Tag "p" [] [Text "Soup $5"]].

(** A page with a span of class dish and a classless div. *)
Definition span_dish_page : node :=
  page [Tag "span" ["dish"] [Text "Soup $5"]; Tag "div" [] [Text "Tea $2"]].

(** A page with a price of one decimal. *)
Definition one_decimal_page : node := page [Tag "p" [] [Text "Soup $9.5"]].


(** A fetcher that always delivers [soup]. *)
Definition always (soup : node) (u : string) : fetched := Page soup.

(** A fetcher for which one URL is out of reach. *)
Definition unreachable (url : string) (soup : node) (u : string) : fetched :=
  if String.eqb u url then Failed "timeout" else Page soup.

End Samples.

(** ** Vocabulary for texts and further sample pages *)

Module Text.

Import Chars Str Dom Scraper.

(** [a] occurs in [b]. *)
Definition substr (a b : string) : Prop :=
  exists pre post, b = pre ++ a ++ post.

(** [s] begins with a digit. *)
Definition starts_with_digit (s : string) : bool :=
  match s with
  | String d _ => is_digit d
  | EmptyString => false
  end.

(** Somewhere in [s] a dollar sign is directly followed by a digit. *)
Definition dollar_then_digit (s : string) : Prop :=
  exists pre d post,
    s = pre ++ String "$" (String d post) /\ is_digit d = true.

Fixpoint has_newline (s : string) : bool :=
  match s with
  | EmptyString => false
  | String c r => is_newline c || has_newline r
  end.

(** [s] occurs in the page: in the text [get_text] gives for it, or
    within one of the strings [find_all(string=True)] returns, comments
    and script text among them. *)
Definition occurs_in_page (s : string) (soup : node) : Prop :=
  contains s (get_text soup) = true
  \/ exists t, In t (all_strings soup) /\ contains s t = true.

(** The generic locator as the specification words it: both scans range
    over the container elements, div and section alike. *)
Definition worded_potential_items (soup : node) : list node :=
  (filter (fun n => has_name ["div"; "section"] n
                    && class_matches (class_has "menu" "item") n)
     (descendants soup)
   ++ filter (fun n => has_name ["div"; "section"] n
                       && class_matches (class_has "dish" "food") n)
        (descendants soup))%list.

(** [s] has no white space at either end. *)
Definition trimmed (s : string) : Prop := strip s = s.


(** A page whose div holds a chain of three nested spans. *)
Definition nested_page : node :=
  Samples.page
    [Tag "div" []
       [Tag "span" [] [Tag "span" [] [Tag "span" [] [Text "Soup $5"]]]]].

(** A page with a section of class menu-item and a div of class dish. *)
Definition crossed_classes_page : node :=
  Samples.page
    [Tag "section" ["menu-item"] [Text "Soup $5"];
     Tag "div" ["dish"] [Text "Tea $2"]].

(** A page whose only priced text is a comment. *)
Definition comment_page : node :=
  Samples.page [Tag "p" [] [Special "cost $9"; Text "Ask us"]].

(** A menu block whose heading is blank. *)
Definition blank_heading_block : node :=
  Tag "div" ["menu"] [Tag "h3" [] [Text " "]; Text "Soup $5"].

End Text.

(** ** The price reader of [utils/value_calculator.py] *)

Module ValueCalculator.

Import Chars Str.

(** [s.replace(old, new)] for a non-empty [old]: every non-overlapping
    occurrence of [old], found from the left, becomes [new]. [skip] counts
    the characters of an occurrence still to be passed over. *)
Fixpoint replace_go (old new : string) (skip : nat) (s : string) : string :=
  match s with
  | EmptyString => EmptyString
  | String c r =>
      match skip with
      | S k => replace_go old new k r
      | O =>
          if prefix old s
          then new ++ replace_go old new (String.length old - 1) r
          else String c (replace_go old new 0 r)
      end
  end.

Definition replace (old new s : string) : string := replace_go old new 0 s.

(** What [parse_price] hands to [float]: the price without its dollar
    signs, stripped. *)
Definition price_numeral (price_str : string) : string :=
  strip (replace "$" "" price_str).

Section Float.

(** The floating-point numbers and their constructor from a string, which
    gives nothing where Python raises [ValueError]. *)
Variable F : Type.
Variable float : string -> option F.
Variable zero : F.

Definition parse_price (price_str : string) : F :=
  let price_str := price_numeral price_str in
  match float price_str with
  | Some x => x
  | None => zero
  end.

End Float.

(** A plain decimal numeral: one or more digits, then possibly a full stop
    and one or more digits. *)
Definition decimal_numeral (s : string) : bool :=
  let (int_part, frac) := Spec.cut_at_dot s in
  negb (is_empty int_part) && Spec.all_digits int_part &&
  match frac with
  | None => true
  | Some fs => Spec.all_digits fs && (0 <? String.length fs)
  end.

(** Every character of [s] is a digit or a full stop. *)
Fixpoint numeric_chars (s : string) : bool :=
  match s with
  | EmptyString => true
  | String c r => (is_digit c || Ascii.eqb c ".") && numeric_chars r
  end.

End ValueCalculator.

(** * Properties *)

Import Chars Str Re Dom Scraper Spec Samples Text.

(** ** Facts about strings *)

Section StringFacts.

Lemma append_assoc (a b c : string) : (a ++ b) ++ c = a ++ b ++ c.
Proof. induction a as [|x a IH]; simpl; [reflexivity | now rewrite IH]. Qed.

Lemma append_empty_r (a : string) : a ++ "" = a.
Proof. induction a as [|x a IH]; simpl; [reflexivity | now rewrite IH]. Qed.

Lemma length_append (a b : string) :
  String.length (a ++ b) = String.length a + String.length b.
Proof. induction a as [|x a IH]; simpl; [reflexivity | now rewrite IH]. Qed.

Lemma is_empty_true (s : string) : is_empty s = true <-> s = "".
Proof. destruct s; simpl; split; congruence. Qed.

Lemma is_empty_false (s : string) : is_empty s = false <-> s <> "".
Proof. destruct s; simpl; split; congruence. Qed.

Lemma prefix_append (a r : string) : prefix a (a ++ r) = true.
Proof.
  induction a as [|x a IH]; simpl.
  - now destruct r.
  - destruct (ascii_dec x x); [assumption | congruence].
Qed.

Lemma prefix_inv (a s : string) :
  prefix a s = true -> exists r, s = a ++ r.
Proof.
  revert a; induction s as [|y s IH]; intros [|x a] H; simpl in *.
  - now exists "".
  - discriminate.
  - now exists (String y s).
  - destruct (ascii_dec x y) as [->|]; [|discriminate].
    destruct (IH _ H) as [r ->]. now exists r.
Qed.

Lemma contains_iff (sub s : string) :
  contains sub s = true <-> exists pre post, s = pre ++ sub ++ post.
Proof.
  split.
  - induction s as [|y s IH]; cbn [contains]; rewrite orb_true_iff;
      intros [H|H].
    + apply prefix_inv in H as [r ->]. now exists "", r.
    + discriminate.
    + apply prefix_inv in H as [r ->]. now exists "", r.
    + destruct (IH H) as (pre & post & ->). now exists (String y pre), post.
  - intros (pre & post & ->).
    induction pre as [|y pre IH].
    + change ("" ++ sub ++ post) with (sub ++ post).
      destruct (sub ++ post) eqn:E; cbn [contains]; rewrite <- E, prefix_append;
        reflexivity.
    + change (String y pre ++ sub ++ post) with (String y (pre ++ sub ++ post)).
      cbn [contains]. rewrite IH. apply orb_true_r.
Qed.

Lemma append_eq_append (a b c d : string) :
  a ++ b = c ++ d ->
  (exists m, c = a ++ m /\ b = m ++ d) \/ (exists m, a = c ++ m /\ d = m ++ b).
Proof.
  revert c; induction a as [|x a IH]; intros c H; simpl in *.
  - left. now exists c.
  - destruct c as [|y c]; simpl in *.
    + right. now exists (String x a).
    + injection H as -> H. destruct (IH _ H) as [(m & -> & ->)|(m & -> & ->)].
      * left. now exists m.
      * right. now exists m.
Qed.

Lemma lower_append (a b : string) : lower (a ++ b) = lower a ++ lower b.
Proof. induction a as [|x a IH]; simpl; [reflexivity | now rewrite IH]. Qed.

Lemma lower_append_inv (s a b : string) :
  lower s = a ++ b -> exists s1 s2, s = s1 ++ s2 /\ lower s1 = a /\ lower s2 = b.
Proof.
  revert s; induction a as [|x a IH]; intros s H; simpl in *.
  - now exists "", s.
  - destruct s as [|y s]; simpl in *; [discriminate|].
    injection H as Hx H. destruct (IH _ H) as (s1 & s2 & -> & <- & <-).
    exists (String y s1), s2. simpl. now rewrite Hx.
Qed.

(** Python's [key in name.lower()] is the case-insensitive substring test. *)
Lemma contains_lower_iff (key name : string) :
  contains key (lower name) = true <-> ci_substring key name.
Proof.
  rewrite contains_iff. split.
  - intros (pre & post & H).
    apply lower_append_inv in H as (s1 & s23 & -> & _ & H).
    apply lower_append_inv in H as (s2 & s3 & -> & H & _).
    now exists s1, s2, s3.
  - intros (pre & mid & post & -> & <-).
    exists (lower pre), (lower post). now rewrite !lower_append.
Qed.

End StringFacts.

(** ** Strategy resolution *)

Section Resolution.

Lemma is_spenard_iff (restaurant_name : string) :
  is_spenard restaurant_name = true
  <-> ci_substring "spenard roadhouse" restaurant_name.
Proof. apply contains_lower_iff. Qed.

(** C8. A restaurant name that contains the vendor key "spenard roadhouse"
    anywhere, whatever the letter case, is handled by the vendor strategy;
    every other name is handled by the generic strategy. *)
Theorem vendor_key_selects_strategy (soup : node) (restaurant_name : string) :
  (ci_substring "spenard roadhouse" restaurant_name ->
   extract_menu_items soup restaurant_name = extract_spenard_menu_items soup)
  /\ (~ ci_substring "spenard roadhouse" restaurant_name ->
      extract_menu_items soup restaurant_name = snd (generic_run soup)).
Proof.
  unfold extract_menu_items. split; intros H.
  - apply is_spenard_iff in H. now rewrite H.
  - destruct (is_spenard restaurant_name) eqn:E; [|reflexivity].
    apply is_spenard_iff in E. contradiction.
Qed.

Lemma vendor_key_selects_strategy_witness :
  ci_substring "spenard roadhouse" "Spenard Roadhouse Downtown"
  /\ (forall soup,
        extract_menu_items soup "Spenard Roadhouse Downtown"
        = extract_spenard_menu_items soup)
  /\ ~ ci_substring "spenard roadhouse" "Snow City Cafe"
  /\ (forall soup,
        extract_menu_items soup "Snow City Cafe" = snd (generic_run soup)).
Proof.
  assert (Hin : ci_substring "spenard roadhouse" "Spenard Roadhouse Downtown").
  { apply is_spenard_iff. reflexivity. }
  assert (Hout : ~ ci_substring "spenard roadhouse" "Snow City Cafe").
  { intros H. apply is_spenard_iff in H. discriminate H. }
  split; [exact Hin|]. split.
  - intros soup.
    exact (proj1 (vendor_key_selects_strategy soup _) Hin).
  - split; [exact Hout|]. intros soup.
    exact (proj2 (vendor_key_selects_strategy soup _) Hout).
Defined.

End Resolution.

(** ** The per-restaurant envelope *)

Section Envelope.

Variable fetch : string -> fetched.
Variable stack_budget : nat.
Variable recursion_error : string.

Lemma scrape_all_restaurants_app (xs ys : list Restaurant.t) :
  scrape_all_restaurants fetch stack_budget recursion_error (xs ++ ys)
  = (scrape_all_restaurants fetch stack_budget recursion_error xs
     ++ scrape_all_restaurants fetch stack_budget recursion_error ys)%list.
Proof. induction xs as [|x xs IH]; simpl; [reflexivity | now rewrite IH]. Qed.

(** C9. When the fetch of a restaurant's menu page fails, its result has
    the failure message in [error] and an empty item list, without the
    placeholder; in a run over many restaurants the results before and
    after it are those of the other restaurants alone. *)
Theorem fetch_failure_recorded
    (restaurant : Restaurant.t) (e : string)
    (Hfail : fetch (Restaurant.menu_url restaurant) = Failed e) :
  Scraped.error
    (scrape_restaurant_menu fetch stack_budget recursion_error restaurant)
  = Some e
  /\ Scraped.menu_items
       (scrape_restaurant_menu fetch stack_budget recursion_error restaurant)
     = []
  /\ ~ In placeholder
         (Scraped.menu_items
            (scrape_restaurant_menu fetch stack_budget recursion_error
               restaurant))
  /\ forall before after,
       scrape_all_restaurants fetch stack_budget recursion_error
         (before ++ restaurant :: after)
       = (scrape_all_restaurants fetch stack_budget recursion_error before
          ++ scrape_restaurant_menu fetch stack_budget recursion_error
               restaurant
          :: scrape_all_restaurants fetch stack_budget recursion_error after)%list.
Proof.
  unfold scrape_restaurant_menu. rewrite Hfail. simpl.
  repeat split; auto.
  intros before after. rewrite scrape_all_restaurants_app. simpl.
  unfold scrape_restaurant_menu at 1. now rewrite Hfail.
Qed.

(** C10. On the success path and on the error path alike, the result
    carries the restaurant's name, website, cuisine and menu URL as they
    were given. *)
Theorem source_fields_preserved (restaurant : Restaurant.t) :
  Scraped.name
    (scrape_restaurant_menu fetch stack_budget recursion_error restaurant)
  = Restaurant.name restaurant
  /\ Scraped.website
       (scrape_restaurant_menu fetch stack_budget recursion_error restaurant)
     = Restaurant.website restaurant
  /\ Scraped.cuisine
       (scrape_restaurant_menu fetch stack_budget recursion_error restaurant)
     = Restaurant.cuisine restaurant
  /\ Scraped.menu_url
       (scrape_restaurant_menu fetch stack_budget recursion_error restaurant)
     = Restaurant.menu_url restaurant.
Proof.
  unfold scrape_restaurant_menu.
  destruct (fetch (Restaurant.menu_url restaurant)) as [soup|e]; simpl; auto.
  destruct (extract_menu_items_outcome _ _ _ _); simpl; auto.
Qed.

End Envelope.

Lemma fetch_failure_recorded_witness :
  let fetch := unreachable "http://b/menu" closed_page in
  let r := Restaurant.mk "B" "http://b" "thai" "http://b/menu" in
  fetch (Restaurant.menu_url r) = Failed "timeout"
  /\ Scraped.error (scrape_restaurant_menu fetch 900 "recursion" r)
     = Some "timeout"
  /\ Scraped.menu_items (scrape_restaurant_menu fetch 900 "recursion" r) = [].
Proof.
  intros fetch r.
  assert (Hfail : fetch (Restaurant.menu_url r) = Failed "timeout")
    by reflexivity.
  split; [exact Hfail|].
  destruct (fetch_failure_recorded fetch 900 "recursion" r "timeout" Hfail)
    as (He & Hi & _).
  split; [exact He | exact Hi].
Defined.

(** ** The placeholder guard *)

Section Guard.

Lemma generic_run_items (soup : node) :
  snd (generic_run soup)
  = match structural_records soup with
    | [] =>
        match text_scan parse_menu_text soup with
        | [] => [placeholder]
        | items => items
        end
    | items => items
    end.
Proof.
  unfold generic_run, structural_records, structural_candidates.
  destruct (potential_items soup) as [|b bs] eqn:Hp; simpl.
  - destruct (text_scan parse_menu_text soup); reflexivity.
  - fold (structural_record b).
    destruct (structural_record b ++ _)%list; simpl; [|reflexivity].
    destruct (text_scan parse_menu_text soup); reflexivity.
Qed.

(** The generic strategy never returns an empty list. *)
Lemma generic_run_nonempty (soup : node) : snd (generic_run soup) <> [].
Proof.
  rewrite generic_run_items.
  destruct (structural_records soup); [|discriminate].
  destruct (text_scan parse_menu_text soup); discriminate.
Qed.

(** C1. For the restaurant "Spenard Roadhouse" and a page that is fetched
    without error but holds no price, the vendor strategy returns from
    [extract_menu_items] before the placeholder block: the result has no
    error and an empty item list. *)
Theorem vendor_page_without_price_yields_no_item
    (stack_budget : nat) (recursion_error : string) :
  let restaurant :=
    Restaurant.mk "Spenard Roadhouse" "https://www.spenardroadhouse.com"
      "American" "https://www.spenardroadhouse.com/menu" in
  let result :=
    scrape_restaurant_menu (always closed_page) stack_budget recursion_error
      restaurant in
  extract_menu_items closed_page "Spenard Roadhouse" = []
  /\ Scraped.error result = None
  /\ Scraped.menu_items result = [].
Proof. repeat split. Qed.

End Guard.

(** ** Empty names *)

Section Names.

(** C3. The generic text parser accepts the bare price ["$5.00"] with an
    empty name, and the record reaches the output of [extract_menu_items];
    the vendor parser rejects the same text. *)
Theorem generic_text_parser_accepts_empty_name :
  parse_menu_text "$5.00" = Some (MenuItem.mk "" "$5.00" "")
  /\ extract_menu_items bare_price_page "Snow City Cafe"
     = [MenuItem.mk "" "$5.00" ""]
  /\ parse_spenard_menu_item "$5.00" = None.
Proof. repeat split. Qed.

(** The vendor parser never accepts an empty name. *)
Lemma parse_spenard_menu_item_name (text : string) (item : MenuItem.t) :
  parse_spenard_menu_item text = Some item -> MenuItem.name item <> "".
Proof.
  unfold parse_spenard_menu_item.
  destruct (search_price text) as [m|]; [|discriminate].
  destruct (if _ && _ then _ else _) as [name description].
  destruct (is_empty (strip name)) eqn:E; [discriminate|].
  intros [= <-]. simpl. now apply is_empty_false.
Qed.


End Names.

(** ** The text fallback of the generic strategy *)

Section Fallback.





End Fallback.

(** ** Prices *)

Section Prices.

Lemma span_digits_all (s : string) : all_digits (fst (span_digits s)) = true.
Proof.
  induction s as [|c r IH]; simpl; [reflexivity|].
  destruct (is_digit c) eqn:E; [|reflexivity].
  destruct (span_digits r) as [ds rest]. simpl in *. now rewrite E.
Qed.

Lemma digit_not_dot (c : ascii) : is_digit c = true -> Ascii.eqb c "." = false.
Proof.
  destruct (Ascii.eqb_spec c ".") as [->|]; [discriminate | reflexivity].
Qed.

Lemma cut_at_dot_digits (ds : string) :
  all_digits ds = true -> cut_at_dot ds = (ds, None).
Proof.
  induction ds as [|c r IH]; simpl; [reflexivity|].
  intros H. apply andb_prop in H as [Hc Hr].
  now rewrite (digit_not_dot _ Hc), (IH Hr).
Qed.

Lemma cut_at_dot_digits_dot (ds fs : string) :
  all_digits ds = true -> cut_at_dot (ds ++ String "." fs) = (ds, Some fs).
Proof.
  induction ds as [|c r IH]; simpl; [reflexivity|].
  intros H. apply andb_prop in H as [Hc Hr].
  now rewrite (digit_not_dot _ Hc), (IH Hr).
Qed.

Lemma nonempty_length (s : string) :
  is_empty s = false -> (0 <? String.length s) = true.
Proof. destruct s; [discriminate | reflexivity]. Qed.

Lemma price_here_token (s m : string) :
  price_here s = Some m -> currency_token_any m = true.
Proof.
  unfold price_here. destruct s as [|c r]; [discriminate|].
  destruct (is_dollar c) eqn:Hc; [|discriminate].
  pose proof (span_digits_all r) as Hds.
  destruct (span_digits r) as [ds rest]. simpl in Hds.
  destruct (is_empty ds) eqn:Hne; [discriminate|].
  assert (Hint : currency_token_any (String c ds) = true).
  { unfold currency_token_any, currency_token.
    now rewrite Hc, (cut_at_dot_digits _ Hds), Hne, Hds. }
  destruct rest as [|d rest']; [now intros [= <-]|].
  destruct (Ascii.eqb_spec d ".") as [->|]; [|now intros [= <-]].
  pose proof (span_digits_all rest') as Hfs.
  destruct (span_digits rest') as [fs tail]. simpl in Hfs.
  destruct (is_empty fs) eqn:Hfe; [now intros [= <-]|].
  intros [= <-]. unfold currency_token_any, currency_token. simpl.
  now rewrite Hc, (cut_at_dot_digits_dot _ _ Hds), Hne, Hds, Hfs,
    (nonempty_length _ Hfe).
Qed.

Lemma search_price_token (s : string) (price_match : nat * string) :
  search_price s = Some price_match ->
  currency_token_any (snd price_match) = true.
Proof.
  revert price_match. induction s as [|c r IH]; intros pm.
  - discriminate.
  - cbn [search_price]. destruct (price_here (String c r)) as [m|] eqn:E.
    + intros [= <-]. exact (price_here_token _ _ E).
    + destruct (search_price r) as [[i m]|]; [|discriminate].
      intros [= <-]. exact (IH _ eq_refl).
Qed.

Lemma first_price_token (texts : list string) (p : string) :
  first_price texts = Some p -> currency_token_any p = true.
Proof.
  induction texts as [|text rest IH]; simpl; [discriminate|].
  destruct (contains "$" text); [|exact IH].
  destruct (search_price text) as [pm|] eqn:E; [|exact IH].
  intros [= <-]. exact (search_price_token _ _ E).
Qed.

Lemma structural_record_price (block : node) (item : MenuItem.t) :
  In item (structural_record block) ->
  currency_token_any (MenuItem.price item) = true.
Proof.
  unfold structural_record, extract_price.
  destruct (extract_name block) as [n|]; [|intros []].
  destruct (first_price (all_strings block)) as [p|] eqn:E; [|intros []].
  destruct (truthy (Some n) && truthy (Some p)); [|intros []].
  intros [<-|[]]. simpl. exact (first_price_token _ _ E).
Qed.

Lemma parse_menu_text_price (text : string) (item : MenuItem.t) :
  parse_menu_text text = Some item ->
  currency_token_any (MenuItem.price item) = true.
Proof.
  unfold parse_menu_text.
  destruct (search_price text) as [pm|] eqn:E; [|discriminate].
  destruct (search_name text); [|discriminate].
  intros [= <-]. simpl. exact (search_price_token _ _ E).
Qed.

Lemma parse_spenard_menu_item_price (text : string) (item : MenuItem.t) :
  parse_spenard_menu_item text = Some item ->
  currency_token_any (MenuItem.price item) = true.
Proof.
  unfold parse_spenard_menu_item.
  destruct (search_price text) as [pm|] eqn:E; [|discriminate].
  destruct (if _ && _ then _ else _) as [name description].
  destruct (is_empty (strip name)); [discriminate|].
  intros [= <-]. simpl. exact (search_price_token _ _ E).
Qed.

Lemma text_scan_price (parse : string -> option MenuItem.t) (soup : node) :
  (forall text item, parse text = Some item ->
                     currency_token_any (MenuItem.price item) = true) ->
  forall item, In item (text_scan parse soup) ->
               currency_token_any (MenuItem.price item) = true.
Proof.
  intros Hparse item Hin. unfold text_scan in Hin.
  apply in_flat_map in Hin as (text & _ & Hin).
  destruct (contains "$" text && _); [|destruct Hin].
  destruct (parse (strip text)) as [d|] eqn:E; [|destruct Hin].
  destruct Hin as [<-|[]]. exact (Hparse _ _ E).
Qed.

Lemma extract_spenard_menu_items_price (soup : node) (item : MenuItem.t) :
  In item (extract_spenard_menu_items soup) ->
  currency_token_any (MenuItem.price item) = true.
Proof.
  unfold extract_spenard_menu_items.
  destruct (is_nil _).
  - apply text_scan_price. exact parse_spenard_menu_item_price.
  - intros Hin. apply in_flat_map in Hin as (element & _ & Hin).
    destruct (negb _ && _); [|destruct Hin].
    destruct (parse_spenard_menu_item _) as [d|] eqn:E; [|destruct Hin].
    destruct Hin as [<-|[]]. exact (parse_spenard_menu_item_price _ _ E).
Qed.

Lemma generic_run_price (soup : node) (item : MenuItem.t) :
  In item (snd (generic_run soup)) ->
  currency_token_any (MenuItem.price item) = true.
Proof.
  rewrite generic_run_items.
  destruct (structural_records soup) as [|r rs] eqn:Hs.
  - destruct (text_scan parse_menu_text soup) as [|t ts] eqn:Ht.
    + intros [<-|[]]. reflexivity.
    + rewrite <- Ht. apply text_scan_price. exact parse_menu_text_price.
  - rewrite <- Hs. unfold structural_records. intros Hin.
    apply in_flat_map in Hin as (block & _ & Hin).
    exact (structural_record_price _ _ Hin).
Qed.

(** C2, as the code has it. The price of every record that
    [extract_menu_items] returns, by the structural loop, the text scan or
    the vendor strategy, the placeholder included, is a dollar sign, one or
    more digits and an optional fraction of a full stop and one or more
    digits. *)
Theorem price_is_currency_token
    (soup : node) (restaurant_name : string) (item : MenuItem.t)
    (Hin : In item (extract_menu_items soup restaurant_name)) :
  currency_token_any (MenuItem.price item) = true.
Proof.
  unfold extract_menu_items in Hin.
  destruct (is_spenard restaurant_name).
  - exact (extract_spenard_menu_items_price _ _ Hin).
  - exact (generic_run_price _ _ Hin).
Qed.

Lemma price_is_currency_token_witness :
  In (MenuItem.mk "Soup" "$9.5" "")
     (extract_menu_items one_decimal_page "Snow City Cafe")
  /\ currency_token_any "$9.5" = true.
Proof.
  assert (Hin : In (MenuItem.mk "Soup" "$9.5" "")
                   (extract_menu_items one_decimal_page "Snow City Cafe"))
    by (left; reflexivity).
  split; [exact Hin|].
  exact (price_is_currency_token one_decimal_page "Snow City Cafe" _ Hin).
Defined.

(** C2, as stated, fails: the text "Soup $9.5" gives a record that is not
    the placeholder and whose price has a fraction of one digit. *)
Lemma price_with_one_decimal :
  exists item,
    In item (extract_menu_items one_decimal_page "Snow City Cafe")
    /\ item <> placeholder
    /\ MenuItem.price item = "$9.5"
    /\ currency_token_two (MenuItem.price item) = false.
Proof.
  exists (MenuItem.mk "Soup" "$9.5" "").
  split; [left; reflexivity|]. split; [discriminate|]. split; reflexivity.
Qed.

End Prices.

(** ** Locators *)

Section Locators.

Lemma find_all_filter (p : node -> bool) (n : node) :
  find_all p n = filter p (descendants n).
Proof.
  induction n as [s|s|name classes contents IH] using node_induction;
    [reflexivity|reflexivity|].
  cbn [find_all descendants].
  induction IH as [|c r Hc _ IHr]; [reflexivity|].
  cbn [flat_map]. rewrite filter_app, IHr, Hc. cbn [filter].
  now destruct (p c).
Qed.

Lemma filter_twice {A : Type} (p q : A -> bool) (l : list A) :
  filter q (filter p l) = filter (fun x => p x && q x) l.
Proof.
  induction l as [|x l IH]; [reflexivity|]. cbn [filter].
  destruct (p x); cbn [filter andb]; [destruct (q x)|]; now rewrite IH.
Qed.

Lemma contains_nonempty (k s : string) :
  is_empty k = false -> contains k s = true -> is_empty s = false.
Proof.
  intros Hk H. destruct s; [|reflexivity].
  destruct k; [discriminate Hk | discriminate H].
Qed.

Lemma spaceless_append (a b : string) :
  spaceless (a ++ b) = spaceless a && spaceless b.
Proof.
  induction a as [|x a IH]; [reflexivity|]. simpl.
  now rewrite IH, andb_assoc.
Qed.

(** A key without spaces found in two texts joined by a space lies in one
    of the two. *)
Lemma contains_across_space (k a b : string) :
  plain_key k = true ->
  contains k (a ++ String " " b) = true ->
  contains k a = true \/ contains k b = true.
Proof.
  intros Hk H. apply andb_prop in Hk as [Hne Hsp].
  apply negb_true_iff in Hne.
  apply contains_iff in H as (pre & post & H).
  apply append_eq_append in H as [(m & -> & H)|(m & -> & H)].
  - destruct m as [|x m]; simpl in H.
    + destruct k as [|y k]; [discriminate Hne|].
      simpl in H. injection H as <- _. discriminate Hsp.
    + injection H as _ ->. right. apply contains_iff. now exists m, post.
  - apply append_eq_append in H as [(m2 & -> & ->)|(m2 & -> & H)].
    + left. apply contains_iff. exists pre, m2. reflexivity.
    + destruct m2 as [|y m2]; simpl in H.
      * left. apply contains_iff. exists pre, "".
        now rewrite !append_empty_r.
      * injection H as <- _. rewrite spaceless_append in Hsp.
        apply andb_prop in Hsp as [_ Hsp]. discriminate Hsp.
Qed.

Lemma contains_join (k : string) (cls : list string) :
  plain_key k = true ->
  contains k (lower (join " " cls)) = true ->
  exists tok, In tok cls /\ contains k (lower tok) = true.
Proof.
  intros Hk. induction cls as [|tok rest IH]; intros H.
  - apply andb_prop in Hk as [Hne _]. apply negb_true_iff in Hne.
    destruct k; [discriminate Hne | discriminate H].
  - destruct rest as [|tok' rest'].
    + exists tok. split; [now left | exact H].
    + change (join " " (tok :: tok' :: rest'))
        with (tok ++ String " " (join " " (tok' :: rest'))) in H.
      rewrite lower_append in H.
      change (lower (String " " (join " " (tok' :: rest'))))
        with (String " " (lower (join " " (tok' :: rest')))) in H.
      apply (contains_across_space _ _ _ Hk) in H as [H|H].
      * exists tok. split; [now left | exact H].
      * destruct (IH H) as (t & Hin & Ht). exists t. split; [now right|exact Ht].
Qed.

Lemma has_name_one (tag : string) (n : node) :
  has_name [tag] n = true <-> exists cls cs, n = Tag tag cls cs.
Proof.
  split.
  - destruct n as [s|s|nm cls cs]; [discriminate|discriminate|]. simpl.
    rewrite orb_false_r. intros H. apply String.eqb_eq in H as ->.
    now exists cls, cs.
  - intros (cls & cs & ->). simpl. now rewrite String.eqb_refl.
Qed.

Lemma class_has_token (k1 k2 tok : string) :
  plain_key k1 = true -> plain_key k2 = true ->
  (class_has k1 k2 tok = true
   <-> ci_substring k1 tok \/ ci_substring k2 tok).
Proof.
  intros H1 H2. unfold class_has.
  rewrite andb_true_iff, orb_true_iff, !contains_lower_iff.
  split; [tauto|]. intros H. split; [|exact H].
  apply andb_prop in H1 as [N1 _]. apply andb_prop in H2 as [N2 _].
  apply negb_true_iff in N1, N2. rewrite <- !contains_lower_iff in H.
  apply negb_true_iff.
  destruct H as [H|H]; apply contains_nonempty in H; auto;
    now destruct tok.
Qed.

(** The class filter offered the joined attribute finds nothing that a
    single token does not already give. *)
Lemma class_matches_iff (k1 k2 : string) (n : node) :
  plain_key k1 = true -> plain_key k2 = true ->
  (class_matches (class_has k1 k2) n = true
   <-> exists nm cls cs tok,
         n = Tag nm cls cs /\ In tok cls /\
         (ci_substring k1 tok \/ ci_substring k2 tok)).
Proof.
  intros H1 H2. split.
  - destruct n as [s|s|nm cls cs]; [discriminate|discriminate|]. simpl.
    rewrite orb_true_iff, existsb_exists. intros [(tok & Hin & Hf)|Hf].
    + exists nm, cls, cs, tok. split; [reflexivity|]. split; [exact Hin|].
      now apply class_has_token.
    + unfold class_has in Hf. apply andb_prop in Hf as [_ Hf].
      apply orb_prop in Hf as [Hf|Hf];
        [apply (contains_join _ _ H1) in Hf | apply (contains_join _ _ H2) in Hf];
        destruct Hf as (tok & Hin & Ht); exists nm, cls, cs, tok;
        (split; [reflexivity|]); (split; [exact Hin|]);
        apply contains_lower_iff in Ht; auto.
  - intros (nm & cls & cs & tok & -> & Hin & Ht). simpl.
    apply orb_true_iff. left. apply existsb_exists. exists tok.
    split; [exact Hin|]. now apply class_has_token.
Qed.

Lemma classed_tag_iff (tag k1 k2 : string) (n : node) :
  plain_key k1 = true -> plain_key k2 = true ->
  (has_name [tag] n && class_matches (class_has k1 k2) n = true
   <-> classed_tag tag k1 k2 n).
Proof.
  intros H1 H2.
  rewrite andb_true_iff, has_name_one, (class_matches_iff _ _ _ H1 H2).
  unfold classed_tag. split.
  - intros [(cls & cs & ->) (nm & cls' & cs' & tok & E & Hin & Ht)].
    injection E as <- <-. now exists cls, cs, tok.
  - intros (cls & cs & tok & -> & Hin & Ht). split.
    + now exists cls, cs.
    + now exists tag, cls, cs, tok.
Qed.

(** C6, as the code has it. The blocks the generic extraction loop visits
    are the first 10 of: the div elements with a class token containing
    "menu" or "item" up to case, in document order, followed by the
    section elements with a class token containing "dish" or "food" up to
    case, in document order. *)
Theorem structural_candidates_order (soup : node) :
  let scan_a := filter is_menu_div (descendants soup) in
  let scan_b := filter is_dish_section (descendants soup) in
  structural_candidates soup = firstn 10 (scan_a ++ scan_b)
  /\ List.length (structural_candidates soup) <= 10
  /\ structural_records soup
     = flat_map structural_record (firstn 10 (scan_a ++ scan_b))
  /\ (forall n, is_menu_div n = true <-> classed_tag "div" "menu" "item" n)
  /\ (forall n, is_dish_section n = true
                <-> classed_tag "section" "dish" "food" n).
Proof.
  intros scan_a scan_b.
  assert (E : structural_candidates soup = firstn 10 (scan_a ++ scan_b)).
  { unfold structural_candidates, potential_items.
    now rewrite !find_all_filter. }
  split; [exact E|]. split; [rewrite E; apply firstn_le_length|].
  split; [unfold structural_records; now rewrite E|].
  split; intros n; now apply classed_tag_iff.
Qed.

(** C6, as stated, fails: scan A is bound to div and scan B to section, so
    on a page with a section of class "menu-item" and a div of class
    "dish" the locator returns no candidate, whereas scans over the
    container elements alike would return both. *)
Lemma scans_bound_to_one_tag_each :
  worded_potential_items crossed_classes_page
  = [Tag "section" ["menu-item"] [Text "Soup $5"];
     Tag "div" ["dish"] [Text "Tea $2"]]
  /\ potential_items crossed_classes_page = []
  /\ structural_candidates crossed_classes_page
     <> firstn 10 (worded_potential_items crossed_classes_page).
Proof. repeat split. discriminate. Qed.

(** C7, as the code has it. The preferred scan of the vendor strategy
    ranges over div elements only, those with a class token containing
    "dish" or "menuitem" up to case; only when it finds none does the
    locator take every div, span and p element whose text contains a
    dollar sign. *)
Theorem spenard_locator (soup : node) :
  let preferred := filter is_dish_div (descendants soup) in
  spenard_dish_elements soup
  = (if is_nil preferred then
       filter (fun el => has_name ["div"; "span"; "p"] el
                         && contains "$" (get_text el))
         (descendants soup)
     else preferred)
  /\ (forall n, is_dish_div n = true <-> classed_tag "div" "dish" "menuitem" n).
Proof.
  intros preferred. split.
  - unfold spenard_dish_elements. rewrite !find_all_filter.
    fold preferred. destruct (is_nil preferred); [|reflexivity].
    rewrite filter_twice. apply filter_ext. intros el. f_equal.
    destruct (contains "$" (get_text el)) eqn:E.
    + now rewrite (contains_nonempty "$" _ eq_refl E).
    + apply andb_false_r.
  - intros n. now apply classed_tag_iff.
Qed.

(** C7, as stated, fails: on a page with a span of class "dish" and a
    classless div, a preferred scan over div, span and p would return the
    span alone, whereas the code finds no preferred element and falls
    back to both priced elements. *)
Lemma preferred_scan_skips_span :
  worded_dish_elements span_dish_page = [Tag "span" ["dish"] [Text "Soup $5"]]
  /\ spenard_dish_elements span_dish_page
     = [Tag "span" ["dish"] [Text "Soup $5"]; Tag "div" [] [Text "Tea $2"]]
  /\ spenard_dish_elements span_dish_page <> worded_dish_elements span_dish_page.
Proof. repeat split. discriminate. Qed.

End Locators.

(** ** Splitting and stripping *)

Section Splitting.


Lemma split_go_acc (sep s cur : string) :
  split_go sep 0 cur s
  = (cur ++ hd "" (split_go sep 0 "" s)) :: tl (split_go sep 0 "" s).
Proof.
  revert cur. induction s as [|c r IH]; intros cur.
  - simpl. now rewrite append_empty_r.
  - cbn [split_go]. destruct (prefix sep (String c r)).
    + simpl. now rewrite append_empty_r.
    + rewrite (IH (cur ++ String c "")), (IH ("" ++ String c "")).
      simpl. now rewrite append_assoc.
Qed.










End Splitting.

Section Stripping.

Variable p : ascii -> bool.

Lemma rstrip_by_idem (s : string) :
  rstrip_by p (rstrip_by p s) = rstrip_by p s.
Proof.
  induction s as [|c r IH]; [reflexivity|]. cbn [rstrip_by].
  destruct (is_empty (rstrip_by p r) && p c) eqn:E; [reflexivity|].
  cbn [rstrip_by]. now rewrite IH, E.
Qed.

Lemma lstrip_by_head (s : string) :
  match lstrip_by p s with
  | EmptyString => True
  | String c _ => p c = false
  end.
Proof.
  induction s as [|c r IH]; simpl; [exact I|].
  destruct (p c) eqn:E; [exact IH | exact E].
Qed.

Lemma lstrip_by_rstrip_by (s : string) :
  match s with EmptyString => True | String c _ => p c = false end ->
  lstrip_by p (rstrip_by p s) = rstrip_by p s.
Proof.
  destruct s as [|c r]; [reflexivity|]. intros Hc. cbn [rstrip_by].
  rewrite Hc, andb_false_r. simpl. now rewrite Hc.
Qed.

Lemma strip_by_idem (s : string) : strip_by p (strip_by p s) = strip_by p s.
Proof.
  unfold strip_by.
  rewrite (lstrip_by_rstrip_by _ (lstrip_by_head s)).
  apply rstrip_by_idem.
Qed.

End Stripping.

(** ** The re-split rule *)

Section Resplit.




End Resplit.

(** * Further properties of the scraper *)

Import Text.

(** ** The price pattern *)

Section PricePattern.

Lemma span_digits_append (s : string) :
  s = fst (span_digits s) ++ snd (span_digits s)
  /\ starts_with_digit (snd (span_digits s)) = false.
Proof.
  induction s as [|c r [IH1 IH2]]; simpl; [now split|].
  destruct (is_digit c) eqn:E.
  - destruct (span_digits r) as [ds rest]. simpl in *.
    split; [now rewrite <- IH1 | exact IH2].
  - simpl. now split.
Qed.

Lemma span_digits_head (s : string) :
  is_empty (fst (span_digits s)) = negb (starts_with_digit s).
Proof.
  destruct s as [|c r]; simpl; [reflexivity|].
  destruct (is_digit c); [|reflexivity].
  now destruct (span_digits r).
Qed.

(** A match at the head of [s] is a prefix of [s], opens with the dollar
    sign and a digit, and is not followed by a digit. *)
Lemma price_here_prefix (s m : string) :
  price_here s = Some m ->
  exists d m' post,
    m = String "$" (String d m') /\ is_digit d = true
    /\ s = m ++ post /\ starts_with_digit post = false.
Proof.
  unfold price_here. destruct s as [|c r]; [discriminate|].
  destruct (is_dollar c) eqn:Hc; [|discriminate].
  apply Ascii.eqb_eq in Hc as ->.
  destruct (span_digits_append r) as [Er Hr].
  pose proof (span_digits_head r) as Hh.
  pose proof (span_digits_all r) as Hall.
  destruct (span_digits r) as [ds rest]. simpl in Er, Hr, Hh, Hall.
  destruct ds as [|d ds']; [discriminate|].
  simpl in Hall. apply andb_prop in Hall as [Hd _]. simpl is_empty. cbv iota.
  destruct rest as [|x rest'].
  - intros [= <-]. exists d, ds', "". subst r.
    rewrite !append_empty_r. repeat split; auto.
  - destruct (Ascii.eqb_spec x ".") as [->|Hx].
    + destruct (span_digits_append rest') as [Ef Hf].
      destruct (span_digits rest') as [fs tail]. simpl in Ef, Hf.
      destruct (is_empty fs) eqn:Hfe.
      * intros [= <-]. exists d, ds', (String "." rest'). subst r.
        repeat split; auto.
      * intros [= <-]. exists d, (ds' ++ String "." fs), tail.
        subst r. rewrite Ef. simpl. rewrite !append_assoc. simpl.
        repeat split; auto.
    + intros [= <-]. exists d, ds', (String x rest'). subst r.
      repeat split; auto.
Qed.

Lemma price_here_dollar_digit (d : ascii) (r : string) :
  is_digit d = true -> price_here (String "$" (String d r)) <> None.
Proof.
  intros Hd. unfold price_here. simpl is_dollar. cbv iota.
  cbn [span_digits]. rewrite Hd. destruct (span_digits r) as [ds rest].
  cbn [is_empty]. destruct rest as [|x rest']; [discriminate|].
  destruct (Ascii.eqb x "."); [|discriminate].
  destruct (span_digits rest') as [fs tail].
  destruct (is_empty fs); discriminate.
Qed.

Lemma search_price_offset (s : string) (i : nat) (m : string) :
  search_price s = Some (i, m) ->
  price_here (drop i s) = Some m
  /\ (forall j, j < i -> price_here (drop j s) = None)
  /\ exists pre, s = pre ++ drop i s /\ String.length pre = i.
Proof.
  revert i. induction s as [|c r IH]; intros i Hfound; [discriminate|].
  cbn [search_price] in Hfound.
  destruct (price_here (String c r)) as [m0|] eqn:E.
  - injection Hfound as <- <-. split; [exact E|].
    split; [intros j Hj; lia|]. now exists "".
  - destruct (search_price r) as [[i0 m0]|]; [|discriminate].
    injection Hfound as <- <-.
    destruct (IH _ eq_refl) as (Hh & Hmin & pre & Es & Hl).
    split; [exact Hh|]. split.
    + intros [|j] Hj; [exact E|]. simpl. apply Hmin. lia.
    + exists (String c pre). simpl. now rewrite <- Es, Hl.
Qed.

(** X1. A match found by the price search sits in the text at the offset
    reported, no match starts further left, and the match is not followed
    by a digit. *)
Theorem search_price_leftmost (s : string) (i : nat) (m : string)
    (Hfound : search_price s = Some (i, m)) :
  exists pre post,
    s = pre ++ m ++ post /\ String.length pre = i
    /\ (forall j, j < i -> price_here (drop j s) = None)
    /\ starts_with_digit post = false.
Proof.
  destruct (search_price_offset _ _ _ Hfound) as (Hh & Hmin & pre & Es & Hl).
  destruct (price_here_prefix _ _ Hh) as (d & m' & post & _ & _ & Ed & Hp).
  exists pre, post. rewrite <- Ed. auto.
Qed.

Lemma search_price_leftmost_witness :
  search_price "Tea $ 2 or $3.50!" = Some (11, "$3.50")
  /\ exists pre post,
       "Tea $ 2 or $3.50!" = pre ++ "$3.50" ++ post
       /\ String.length pre = 11
       /\ (forall j, j < 11 -> price_here (drop j "Tea $ 2 or $3.50!") = None)
       /\ starts_with_digit post = false.
Proof.
  assert (H : search_price "Tea $ 2 or $3.50!" = Some (11, "$3.50"))
    by reflexivity.
  split; [exact H|]. exact (search_price_leftmost _ _ _ H).
Defined.

Lemma search_price_none_suffix (c : ascii) (r : string) :
  search_price (String c r) = None -> search_price r = None.
Proof.
  cbn [search_price]. destruct (price_here (String c r)); [discriminate|].
  now destruct (search_price r) as [[? ?]|].
Qed.

Lemma search_price_some_append (pre s : string) :
  search_price s <> None -> search_price (pre ++ s) <> None.
Proof.
  intros H. induction pre as [|c pre IH]; [exact H|].
  intros E. apply IH.
  change (String c pre ++ s) with (String c (pre ++ s)) in E.
  exact (search_price_none_suffix _ _ E).
Qed.

Lemma search_price_dollar_digit (s : string) :
  search_price s <> None <-> dollar_then_digit s.
Proof.
  split.
  - destruct (search_price s) as [[i m]|] eqn:E; [intros _|congruence].
    destruct (search_price_offset _ _ _ E) as (Hh & _ & pre & Es & _).
    destruct (price_here_prefix _ _ Hh) as (d & m' & post & -> & Hd & Ed & _).
    exists pre, d, (m' ++ post). split; [|exact Hd].
    rewrite Es at 1. now rewrite Ed.
  - intros (pre & d & post & -> & Hd).
    apply search_price_some_append.
    cbn [search_price].
    destruct (price_here (String "$" (String d post))) eqn:E; [discriminate|].
    now apply price_here_dollar_digit in E.
Qed.

(** X2. The price search finds a match exactly in the texts where a dollar
    sign is directly followed by a digit; on every other text both text
    parsers give no record. *)
Theorem price_needs_dollar_then_digit (s : string) :
  (search_price s <> None <-> dollar_then_digit s)
  /\ (~ dollar_then_digit s ->
      parse_menu_text s = None /\ parse_spenard_menu_item s = None).
Proof.
  split; [apply search_price_dollar_digit|]. intros H.
  assert (E : search_price s = None).
  { destruct (search_price s) eqn:E; [|reflexivity]. exfalso. apply H.
    apply search_price_dollar_digit. congruence. }
  unfold parse_menu_text, parse_spenard_menu_item. now rewrite E.
Qed.

Lemma price_needs_dollar_then_digit_witness :
  ~ dollar_then_digit "Tea $ 2"
  /\ parse_menu_text "Tea $ 2" = None
  /\ parse_spenard_menu_item "Tea $ 2" = None.
Proof.
  assert (H : ~ dollar_then_digit "Tea $ 2").
  { intros H. apply search_price_dollar_digit in H. now apply H. }
  split; [exact H|].
  exact (proj2 (price_needs_dollar_then_digit "Tea $ 2") H).
Defined.

End PricePattern.

(** ** Descriptions of structural records *)

Section Descriptions.

Lemma sub_price_go_drop (k : nat) (s : string) :
  sub_price_go k s = sub_price_go 0 (drop k s).
Proof.
  revert s. induction k as [|k IH]; intros s; [reflexivity|].
  destruct s as [|c r]; [reflexivity|]. simpl. apply IH.
Qed.

Lemma drop_append_length (m post : string) :
  drop (String.length m) (m ++ post) = post.
Proof. induction m as [|c m IH]; simpl; [reflexivity | exact IH]. Qed.

(** The substitution, one step at a time: a match at the head is skipped,
    any other character is kept. *)
Lemma sub_price_step (c : ascii) (r : string) :
  sub_price (String c r)
  = match price_here (String c r) with
    | Some m => sub_price (drop (String.length m) (String c r))
    | None => String c (sub_price r)
    end.
Proof.
  unfold sub_price. cbn [sub_price_go].
  destruct (price_here (String c r)) as [m|] eqn:E; [|reflexivity].
  destruct (price_here_prefix _ _ E) as (d & m' & post & -> & _).
  rewrite sub_price_go_drop. reflexivity.
Qed.

Lemma price_here_none_head (c : ascii) (r x : string) :
  price_here (String c r) = None ->
  starts_with_digit r = starts_with_digit x ->
  price_here (String c x) = None.
Proof.
  unfold price_here. destruct (is_dollar c); [|reflexivity].
  intros H E.
  pose proof (span_digits_head r) as Hr.
  pose proof (span_digits_head x) as Hx.
  destruct (span_digits r) as [ds rest]. destruct (span_digits x) as [ds' rest'].
  simpl in Hr, Hx. rewrite Hx, <- E, <- Hr.
  destruct (is_empty ds); [reflexivity|].
  destruct rest as [|y rest0]; [discriminate|].
  destruct (Ascii.eqb y "."); [|discriminate].
  destruct (span_digits rest0) as [fs tail].
  destruct (is_empty fs); discriminate.
Qed.

Lemma price_here_none_digit (c : ascii) (r : string) :
  price_here (String c r) = None -> is_dollar c = true ->
  starts_with_digit r = false.
Proof.
  intros H Hc. destruct r as [|d r']; [reflexivity|]. simpl.
  destruct (is_digit d) eqn:Hd; [|reflexivity].
  apply Ascii.eqb_eq in Hc as ->.
  now apply (price_here_dollar_digit d r') in Hd.
Qed.

Lemma price_here_digit_head (c : ascii) (r : string) :
  is_digit c = true -> price_here (String c r) = None.
Proof.
  intros Hd. unfold price_here.
  destruct (is_dollar c) eqn:Hc; [|reflexivity].
  apply Ascii.eqb_eq in Hc as ->. discriminate Hd.
Qed.

Lemma sub_price_bounded (n : nat) :
  forall s, String.length s <= n ->
    (starts_with_digit s = false -> starts_with_digit (sub_price s) = false)
    /\ search_price (sub_price s) = None.
Proof.
  induction n as [|n IH]; intros s Hle.
  - destruct s; [now split | simpl in Hle; lia].
  - destruct s as [|c r]; [now split|].
    rewrite sub_price_step.
    destruct (price_here (String c r)) as [m|] eqn:E.
    + destruct (price_here_prefix _ _ E) as (d & m' & post & Em & _ & Es & Hp).
      rewrite Es, drop_append_length.
      assert (Hpost : String.length post <= n).
      { apply (f_equal String.length) in Es. rewrite length_append, Em in Es.
        simpl in Es, Hle. lia. }
      destruct (IH post Hpost) as [Hhead Hnone].
      split; [intros _; now apply Hhead | exact Hnone].
    + assert (Hr : String.length r <= n) by (simpl in Hle; lia).
      destruct (IH r Hr) as [Hhead Hnone]. split; [intros H; exact H|].
      cbn [search_price]. rewrite Hnone.
      destruct (is_dollar c) eqn:Hc.
      * assert (Hd : starts_with_digit r = false)
          by exact (price_here_none_digit _ _ E Hc).
        rewrite (price_here_none_head c r (sub_price r) E); [reflexivity|].
        now rewrite Hd, (Hhead Hd).
      * unfold price_here. now rewrite Hc.
Qed.

(** Removing the prices of a text leaves no price behind. *)
Lemma search_price_sub_price (s : string) : search_price (sub_price s) = None.
Proof. exact (proj2 (sub_price_bounded _ s (le_n _))). Qed.

Lemma price_here_append (s t : string) :
  price_here s <> None -> price_here (s ++ t) <> None.
Proof.
  destruct (price_here s) as [m|] eqn:E; [intros _|congruence].
  destruct (price_here_prefix _ _ E) as (d & m' & post & -> & Hd & -> & _).
  simpl. now apply price_here_dollar_digit.
Qed.

Lemma search_price_append_some (s t : string) :
  search_price s <> None -> search_price (s ++ t) <> None.
Proof.
  induction s as [|c r IH]; [intros H; now elim H|].
  change (String c r ++ t) with (String c (r ++ t)).
  cbn [search_price]. destruct (price_here (String c r)) as [m|] eqn:E.
  - intros _.
    assert (H : price_here (String c r ++ t) <> None)
      by (apply price_here_append; congruence).
    change (String c r ++ t) with (String c (r ++ t)) in H.
    destruct (price_here (String c (r ++ t))); [discriminate | congruence].
  - intros H. destruct (price_here (String c (r ++ t))); [discriminate|].
    destruct (search_price r) as [[i m]|]; [|congruence].
    assert (H' : search_price (r ++ t) <> None) by (apply IH; discriminate).
    destruct (search_price (r ++ t)) as [[? ?]|]; [discriminate | congruence].
Qed.

(** A text without price has no price in any stretch of it. *)
Lemma search_price_none_substr (a b : string) :
  substr a b -> search_price b = None -> search_price a = None.
Proof.
  intros (pre & post & ->) H.
  destruct (search_price a) eqn:E; [|reflexivity]. exfalso.
  apply (search_price_some_append pre (a ++ post)); [|exact H].
  apply search_price_append_some. congruence.
Qed.

Lemma lstrip_by_suffix (p : ascii -> bool) (s : string) :
  exists pre, s = pre ++ lstrip_by p s.
Proof.
  induction s as [|c r [pre IH]]; [now exists ""|]. simpl.
  destruct (p c); [|now exists ""].
  exists (String c pre). simpl. now rewrite <- IH.
Qed.

Lemma rstrip_by_prefix (p : ascii -> bool) (s : string) :
  exists post, s = rstrip_by p s ++ post.
Proof.
  induction s as [|c r [post IH]]; [now exists ""|]. cbn [rstrip_by].
  destruct (is_empty (rstrip_by p r) && p c).
  - now exists (String c r).
  - exists post. simpl. now rewrite <- IH.
Qed.

Lemma strip_by_substr (p : ascii -> bool) (s : string) :
  substr (strip_by p s) s.
Proof.
  unfold strip_by, substr.
  destruct (lstrip_by_suffix p s) as [pre E].
  destruct (rstrip_by_prefix p (lstrip_by p s)) as [post E'].
  exists pre, post. now rewrite <- E', <- E.
Qed.

(** X3. The description of a record from the structural loop holds no
    price: wherever prices stood in the block's text, none is left, and
    removing them brings no new one about. *)
Theorem structural_description_priceless (block : node) (item : MenuItem.t)
    (Hin : In item (structural_record block)) :
  search_price (MenuItem.description item) = None.
Proof.
  unfold structural_record in Hin.
  destruct (extract_name block) as [n|] eqn:En; [|destruct Hin].
  destruct (extract_price block) as [p|]; [|destruct Hin].
  destruct (truthy (Some n) && truthy (Some p)); [|destruct Hin].
  destruct Hin as [<-|[]]. simpl. unfold extract_description. rewrite En.
  assert (H : search_price (strip (sub_price (strip (get_text block)))) = None).
  { apply (search_price_none_substr _ _ (strip_by_substr _ _)).
    apply search_price_sub_price. }
  destruct (negb (is_empty n) && _); [reflexivity | exact H].
Qed.

Lemma structural_description_priceless_witness :
  In (MenuItem.mk "Soup $5" "$5" "Soup")
     (structural_record (Tag "div" ["menu"] [Text "Soup $5"]))
  /\ search_price "Soup" = None.
Proof.
  assert (Hin : In (MenuItem.mk "Soup $5" "$5" "Soup")
                  (structural_record (Tag "div" ["menu"] [Text "Soup $5"])))
    by (left; reflexivity).
  split; [exact Hin|].
  exact (structural_description_priceless _ _ Hin).
Defined.

End Descriptions.

(** ** Reasoning over every path of the extraction *)

Section Paths.

Lemma text_scan_all (parse : string -> option MenuItem.t) (soup : node)
    (P : MenuItem.t -> Prop) :
  (forall text item,
      In text (all_strings soup) -> parse (strip text) = Some item -> P item) ->
  forall item, In item (text_scan parse soup) -> P item.
Proof.
  intros Hparse item Hin. unfold text_scan in Hin.
  apply in_flat_map in Hin as (text & Htext & Hin).
  destruct (contains "$" text && _); [|destruct Hin].
  destruct (parse (strip text)) as [d|] eqn:E; [|destruct Hin].
  destruct Hin as [<-|[]]. exact (Hparse _ _ Htext E).
Qed.

(** A property of the placeholder, of the records of each candidate block
    and of the records either parser accepts holds of every record
    [extract_menu_items] returns. *)
Lemma extract_menu_items_all (soup : node) (restaurant_name : string)
    (P : MenuItem.t -> Prop) :
  P placeholder ->
  (forall block item,
      In block (structural_candidates soup) ->
      In item (structural_record block) -> P item) ->
  (forall text item,
      In text (all_strings soup) ->
      parse_menu_text (strip text) = Some item -> P item) ->
  (forall element item,
      In element (spenard_dish_elements soup) ->
      parse_spenard_menu_item (strip (get_text element)) = Some item ->
      P item) ->
  (forall text item,
      In text (all_strings soup) ->
      parse_spenard_menu_item (strip text) = Some item -> P item) ->
  forall item, In item (extract_menu_items soup restaurant_name) -> P item.
Proof.
  intros Hph Hstruct Htext Hdish Hvtext item. unfold extract_menu_items.
  destruct (is_spenard restaurant_name).
  - unfold extract_spenard_menu_items. destruct (is_nil _).
    + apply text_scan_all. exact Hvtext.
    + intros Hin. apply in_flat_map in Hin as (element & Hel & Hin).
      destruct (negb _ && _); [|destruct Hin].
      destruct (parse_spenard_menu_item _) as [d|] eqn:E; [|destruct Hin].
      destruct Hin as [<-|[]]. exact (Hdish _ _ Hel E).
  - rewrite generic_run_items.
    destruct (structural_records soup) as [|r rs] eqn:Hs.
    + destruct (text_scan parse_menu_text soup) as [|t ts] eqn:Ht.
      * intros [<-|[]]. exact Hph.
      * rewrite <- Ht. apply text_scan_all. exact Htext.
    + rewrite <- Hs. unfold structural_records. intros Hin.
      apply in_flat_map in Hin as (block & Hb & Hin).
      exact (Hstruct _ _ Hb Hin).
Qed.

End Paths.

(** ** Trimmed fields *)

Section Trimmed.

Lemma strip_trimmed (s : string) : trimmed (strip s).
Proof. unfold trimmed, strip. apply strip_by_idem. Qed.

Lemma first_nonblank_trimmed (texts : list string) (n : string) :
  first_nonblank texts = Some n -> trimmed n.
Proof.
  induction texts as [|text rest IH]; simpl; [discriminate|].
  destruct (0 <? String.length (strip text)); [|exact IH].
  intros [= <-]. apply strip_trimmed.
Qed.

Lemma extract_name_trimmed (block : node) (n : string) :
  extract_name block = Some n -> trimmed n.
Proof.
  unfold extract_name. destruct (find _ block).
  - intros [= <-]. apply strip_trimmed.
  - apply first_nonblank_trimmed.
Qed.

Lemma extract_description_trimmed (block : node) :
  trimmed (extract_description block).
Proof.
  unfold extract_description. destruct (extract_name block) as [n|].
  - destruct (negb _ && _); [reflexivity | apply strip_trimmed].
  - apply strip_trimmed.
Qed.

Lemma structural_record_trimmed (block : node) (item : MenuItem.t) :
  In item (structural_record block) ->
  trimmed (MenuItem.name item) /\ trimmed (MenuItem.description item).
Proof.
  unfold structural_record.
  destruct (extract_name block) as [n|] eqn:En; [|intros []].
  destruct (extract_price block) as [p|]; [|intros []].
  destruct (truthy (Some n) && truthy (Some p)); [|intros []].
  intros [<-|[]]. simpl. split.
  - exact (extract_name_trimmed _ _ En).
  - apply extract_description_trimmed.
Qed.

Lemma parse_menu_text_trimmed (text : string) (item : MenuItem.t) :
  parse_menu_text text = Some item ->
  trimmed (MenuItem.name item) /\ trimmed (MenuItem.description item).
Proof.
  unfold parse_menu_text.
  destruct (search_price text) as [pm|]; [|discriminate].
  destruct (search_name text); [|discriminate].
  intros [= <-]. simpl. split; [apply strip_trimmed|].
  destruct (_ <? _); [apply strip_trimmed | reflexivity].
Qed.

Lemma parse_spenard_menu_item_trimmed (text : string) (item : MenuItem.t) :
  parse_spenard_menu_item text = Some item ->
  trimmed (MenuItem.name item) /\ trimmed (MenuItem.description item).
Proof.
  unfold parse_spenard_menu_item.
  destruct (search_price text) as [pm|]; [|discriminate].
  destruct (if _ && _ then _ else _) as [name description].
  destruct (is_empty (strip name)); [discriminate|].
  intros [= <-]. simpl. split; apply strip_trimmed.
Qed.

(** X4. No record that [extract_menu_items] returns has white space at
    either end of its name or of its description. *)
Theorem fields_are_trimmed
    (soup : node) (restaurant_name : string) (item : MenuItem.t)
    (Hin : In item (extract_menu_items soup restaurant_name)) :
  trimmed (MenuItem.name item) /\ trimmed (MenuItem.description item).
Proof.
  revert item Hin. apply extract_menu_items_all.
  - split; reflexivity.
  - intros block item _. apply structural_record_trimmed.
  - intros text item _. apply parse_menu_text_trimmed.
  - intros element item _. apply parse_spenard_menu_item_trimmed.
  - intros text item _. apply parse_spenard_menu_item_trimmed.
Qed.

Lemma fields_are_trimmed_witness :
  In (MenuItem.mk "Soup" "$5" "")
     (extract_menu_items rejected_block_page "Snow City Cafe")
  /\ trimmed "Soup" /\ trimmed "".
Proof.
  assert (Hin : In (MenuItem.mk "Soup" "$5" "")
                  (extract_menu_items rejected_block_page "Snow City Cafe"))
    by (left; reflexivity).
  split; [exact Hin|].
  exact (fields_are_trimmed rejected_block_page "Snow City Cafe" _ Hin).
Defined.

End Trimmed.

(** ** The structural loop *)

Section StructuralLoop.






(** X7. A candidate block whose first heading or emphasis element has
    blank text gives no record, whatever other text and prices the block
    holds: the name is not looked for anywhere else. *)
Theorem blank_heading_drops_block (block name_element : node)
    (Hfound : find (has_name name_tags) block = Some name_element)
    (Hblank : strip (get_text name_element) = "") :
  extract_name block = Some "" /\ structural_record block = [].
Proof.
  assert (E : extract_name block = Some "").
  { unfold extract_name. now rewrite Hfound, Hblank. }
  split; [exact E|]. unfold structural_record. rewrite E.
  now destruct (extract_price block).
Qed.

Lemma blank_heading_drops_block_witness :
  find (has_name name_tags) blank_heading_block
  = Some (Tag "h3" [] [Text " "])
  /\ extract_price blank_heading_block = Some "$5"
  /\ structural_record blank_heading_block = [].
Proof.
  assert (Hf : find (has_name name_tags) blank_heading_block
               = Some (Tag "h3" [] [Text " "])) by reflexivity.
  split; [exact Hf|]. split; [reflexivity|].
  exact (proj2 (blank_heading_drops_block _ _ Hf eq_refl)).
Defined.

End StructuralLoop.

(** ** Results of a run *)

Section Run.

Variable fetch : string -> fetched.
Variable stack_budget : nat.
Variable recursion_error : string.

(** X6. For a restaurant whose name does not hold the vendor key and whose
    page is fetched: when no div of the page makes the read of [.string] at
    line 87 overflow the stack, the result has no error and at least one
    menu item; when one does, the exception is caught like a failed fetch
    and the result has the error set and no item. *)
Theorem generic_success_nonempty (restaurant : Restaurant.t) (soup : node)
    (Hpage : fetch (Restaurant.menu_url restaurant) = Page soup)
    (Hgeneric : ~ ci_substring "spenard roadhouse" (Restaurant.name restaurant)) :
  (price_divs_raises stack_budget soup = false ->
   Scraped.error
     (scrape_restaurant_menu fetch stack_budget recursion_error restaurant)
   = None
   /\ Scraped.menu_items
        (scrape_restaurant_menu fetch stack_budget recursion_error restaurant)
      <> [])
  /\ (price_divs_raises stack_budget soup = true ->
      Scraped.error
        (scrape_restaurant_menu fetch stack_budget recursion_error restaurant)
      = Some recursion_error
      /\ Scraped.menu_items
           (scrape_restaurant_menu fetch stack_budget recursion_error
              restaurant)
         = []).
Proof.
  unfold scrape_restaurant_menu, extract_menu_items_outcome. rewrite Hpage.
  destruct (is_spenard (Restaurant.name restaurant)) eqn:E.
  - apply is_spenard_iff in E. contradiction.
  - split; intros ->; simpl; split; auto. apply generic_run_nonempty.
Qed.

(** X10. A run gives one result per restaurant, in the order of the
    restaurants, each under the name of its restaurant, whether its fetch
    failed or not. *)
Theorem one_result_per_restaurant (restaurants : list Restaurant.t) :
  List.length
    (scrape_all_restaurants fetch stack_budget recursion_error restaurants)
  = List.length restaurants
  /\ map Scraped.name
       (scrape_all_restaurants fetch stack_budget recursion_error restaurants)
     = map Restaurant.name restaurants
  /\ forall k restaurant,
       nth_error restaurants k = Some restaurant ->
       nth_error
         (scrape_all_restaurants fetch stack_budget recursion_error restaurants)
         k
       = Some (scrape_restaurant_menu fetch stack_budget recursion_error
                 restaurant).
Proof.
  induction restaurants as [|r rs (IHl & IHn & IHk)]; simpl.
  - repeat split; auto. intros [|k] restaurant H; discriminate H.
  - split; [now rewrite IHl|]. split.
    + rewrite IHn. f_equal. unfold scrape_restaurant_menu.
      destruct (fetch (Restaurant.menu_url r)); [|reflexivity].
      now destruct (extract_menu_items_outcome _ _ _ _).
    + intros [|k] restaurant H; simpl in *.
      * now injection H as <-.
      * now apply IHk.
Qed.

End Run.

Lemma generic_success_nonempty_witness :
  let r := Restaurant.mk "Snow City Cafe" "http://s" "cafe" "http://s/menu" in
  always closed_page (Restaurant.menu_url r) = Page closed_page
  /\ ~ ci_substring "spenard roadhouse" (Restaurant.name r)
  /\ price_divs_raises 900 closed_page = false
  /\ Scraped.menu_items
       (scrape_restaurant_menu (always closed_page) 900 "recursion" r) <> []
  /\ always nested_page (Restaurant.menu_url r) = Page nested_page
  /\ price_divs_raises 2 nested_page = true
  /\ Scraped.error
       (scrape_restaurant_menu (always nested_page) 2 "recursion" r)
     = Some "recursion".
Proof.
  intros r.
  assert (Hp : always closed_page (Restaurant.menu_url r) = Page closed_page)
    by reflexivity.
  assert (Hn : always nested_page (Restaurant.menu_url r) = Page nested_page)
    by reflexivity.
  assert (Hg : ~ ci_substring "spenard roadhouse" (Restaurant.name r)).
  { intros H. apply is_spenard_iff in H. discriminate H. }
  split; [exact Hp|]. split; [exact Hg|]. split; [reflexivity|]. split.
  - exact (proj2 (proj1 (generic_success_nonempty (always closed_page) 900
                           "recursion" r closed_page Hp Hg) eq_refl)).
  - split; [exact Hn|]. split; [reflexivity|].
    exact (proj1 (proj2 (generic_success_nonempty (always nested_page) 2
                           "recursion" r nested_page Hn Hg) eq_refl)).
Defined.

Lemma one_result_per_restaurant_witness :
  let rs := [Restaurant.mk "A" "http://a" "thai" "http://a/menu";
             Restaurant.mk "B" "http://b" "thai" "http://b/menu"] in
  let fetch := unreachable "http://b/menu" closed_page in
  nth_error rs 1 = Some (Restaurant.mk "B" "http://b" "thai" "http://b/menu")
  /\ nth_error (scrape_all_restaurants fetch 900 "recursion" rs) 1
     = Some (scrape_restaurant_menu fetch 900 "recursion"
               (Restaurant.mk "B" "http://b" "thai" "http://b/menu")).
Proof.
  intros rs fetch.
  assert (H : nth_error rs 1
              = Some (Restaurant.mk "B" "http://b" "thai" "http://b/menu"))
    by reflexivity.
  split; [exact H|].
  exact (proj2 (proj2 (one_result_per_restaurant fetch 900 "recursion" rs))
           1 _ H).
Defined.

(** ** The name pattern *)

Section NamePattern.

Lemma is_empty_lstrip_rstrip (p : ascii -> bool) (s : string) :
  is_empty (lstrip_by p s) = is_empty (rstrip_by p s).
Proof.
  induction s as [|c r IH]; [reflexivity|]. cbn [lstrip_by rstrip_by].
  destruct (p c).
  - rewrite IH. now destruct (is_empty (rstrip_by p r)).
  - now rewrite andb_false_r.
Qed.

Lemma lstrip_by_rstrip_by_comm (p : ascii -> bool) (s : string) :
  lstrip_by p (rstrip_by p s) = rstrip_by p (lstrip_by p s).
Proof.
  induction s as [|c r IH]; [reflexivity|]. cbn [lstrip_by rstrip_by].
  destruct (p c) eqn:Hc.
  - rewrite andb_true_r. destruct (is_empty (rstrip_by p r)) eqn:E.
    + rewrite <- IH. apply is_empty_true in E. now rewrite E.
    + cbn [lstrip_by]. now rewrite Hc.
  - rewrite andb_false_r. cbn [lstrip_by rstrip_by].
    now rewrite Hc, andb_false_r.
Qed.

Lemma strip_by_rstrip_by (p : ascii -> bool) (s : string) :
  strip_by p (rstrip_by p s) = strip_by p s.
Proof.
  unfold strip_by. now rewrite lstrip_by_rstrip_by_comm, rstrip_by_idem.
Qed.

Lemma no_dollar_tail (c : ascii) (r : string) :
  contains "$" (String c r) = false ->
  is_dollar c = false /\ contains "$" r = false.
Proof.
  cbn [contains]. intros H. apply orb_false_elim in H as [Hp Hr].
  split; [|exact Hr]. simpl in Hp. unfold is_dollar.
  destruct (ascii_dec "$" c) as [<-|Hn].
  - now destruct r.
  - destruct (Ascii.eqb_spec c "$") as [->|]; [now elim Hn | reflexivity].
Qed.

Lemma spaces_dollar_here_first (pre post : string) :
  contains "$" pre = false ->
  spaces_dollar_here (pre ++ String "$" post)
  = is_empty (rstrip_by is_space pre).
Proof.
  intros H. rewrite <- is_empty_lstrip_rstrip. unfold spaces_dollar_here.
  induction pre as [|c r IH]; [reflexivity|].
  apply no_dollar_tail in H as [Hc Hr].
  change (String c r ++ String "$" post) with (String c (r ++ String "$" post)).
  cbn [lstrip_by]. destruct (is_space c); [exact (IH Hr) | exact Hc].
Qed.

(** The name pattern on a text cut at its first dollar sign: the group is
    what precedes the sign without its trailing white space, and there is
    no match when a line feed stands in it. *)
Lemma search_name_first (pre post : string) :
  contains "$" pre = false ->
  search_name (pre ++ String "$" post)
  = if has_newline (rstrip_by is_space pre) then None
    else Some (rstrip_by is_space pre).
Proof.
  induction pre as [|c r IH]; intros H; [reflexivity|].
  pose proof (spaces_dollar_here_first (String c r) post H) as Hs.
  apply no_dollar_tail in H as [_ Hr]. specialize (IH Hr).
  change (String c r ++ String "$" post) with (String c (r ++ String "$" post))
    in *.
  cbn [search_name]. rewrite Hs. cbn [rstrip_by].
  destruct (is_empty (rstrip_by is_space r) && is_space c); [reflexivity|].
  cbn [is_empty has_newline]. rewrite IH.
  destruct (is_newline c); [reflexivity|]. simpl.
  now destruct (has_newline (rstrip_by is_space r)).
Qed.

(** X8. The generic text parser takes the name from before the first
    dollar sign of the text, also when the price it matched stands at a
    later dollar sign, and rejects the text when a line feed stands in that
    part; the description is what follows the price. *)
Theorem parse_menu_text_first_dollar (pre post : string)
    (Hfirst : contains "$" pre = false) :
  let text := pre ++ String "$" post in
  parse_menu_text text
  = match search_price text with
    | None => None
    | Some price_match =>
        if has_newline (rstrip_by is_space pre) then None
        else
          Some (MenuItem.mk (strip pre) (snd price_match)
                  (if match_end price_match <? String.length text
                   then strip (drop (match_end price_match) text) else ""))
    end.
Proof.
  intros text. unfold parse_menu_text.
  destruct (search_price text) as [pm|]; [|reflexivity].
  unfold text. rewrite (search_name_first _ _ Hfirst).
  destruct (has_newline (rstrip_by is_space pre)); [reflexivity|].
  unfold strip. now rewrite strip_by_rstrip_by.
Qed.

Lemma parse_menu_text_first_dollar_witness :
  contains "$" "Cost " = false
  /\ parse_menu_text "Cost $ about $5 each"
     = Some (MenuItem.mk "Cost" "$5" "each").
Proof.
  assert (H : contains "$" "Cost " = false) by reflexivity.
  split; [exact H|].
  exact (parse_menu_text_first_dollar "Cost " " about $5 each" H).
Defined.

End NamePattern.

(** ** Names of the vendor strategy *)

Section VendorNames.

(** X11. No record of the vendor strategy has an empty name, whether it
    comes from a candidate element or from the scan of the text nodes. *)
Theorem vendor_names_nonempty (soup : node) (item : MenuItem.t)
    (Hin : In item (extract_spenard_menu_items soup)) :
  MenuItem.name item <> "".
Proof.
  unfold extract_spenard_menu_items in Hin. destruct (is_nil _).
  - revert item Hin. apply text_scan_all.
    intros text item _. apply parse_spenard_menu_item_name.
  - apply in_flat_map in Hin as (element & _ & Hin).
    destruct (negb _ && _); [|destruct Hin].
    destruct (parse_spenard_menu_item _) as [d|] eqn:E; [|destruct Hin].
    destruct Hin as [<-|[]]. exact (parse_spenard_menu_item_name _ _ E).
Qed.

Lemma vendor_names_nonempty_witness :
  In (MenuItem.mk "Soup" "$5" "") (extract_spenard_menu_items span_dish_page)
  /\ "Soup" <> "".
Proof.
  assert (Hin : In (MenuItem.mk "Soup" "$5" "")
                  (extract_spenard_menu_items span_dish_page))
    by (left; reflexivity).
  split; [exact Hin|].
  exact (vendor_names_nonempty span_dish_page _ Hin).
Defined.

End VendorNames.

(** ** Provenance of names and prices *)

Section Provenance.

Lemma substr_refl (s : string) : substr s s.
Proof. exists "", "". simpl. now rewrite append_empty_r. Qed.

Lemma substr_trans (a b c : string) : substr a b -> substr b c -> substr a c.
Proof.
  intros (p1 & q1 & ->) (p2 & q2 & ->).
  exists (p2 ++ p1), (q1 ++ q2). now rewrite !append_assoc.
Qed.

Lemma substr_prefix (a post : string) : substr a (a ++ post).
Proof. now exists "", post. Qed.

Lemma concat_all_app (l1 l2 : list string) :
  concat_all (l1 ++ l2) = concat_all l1 ++ concat_all l2.
Proof.
  induction l1 as [|x l1 IH]; simpl; [reflexivity|].
  now rewrite IH, append_assoc.
Qed.

Lemma concat_all_substr (l1 l l2 : list string) :
  substr (concat_all l) (concat_all (l1 ++ l ++ l2)).
Proof.
  exists (concat_all l1), (concat_all l2). now rewrite !concat_all_app.
Qed.

(** The strings of a descendant lie together among the strings of the
    tree, and so do its plain strings among the plain strings. *)
Lemma descendants_strings (n el : node) :
  In el (descendants n) ->
  (exists l1 l2, all_strings n = (l1 ++ all_strings el ++ l2)%list)
  /\ (exists l1 l2, visible_strings n = (l1 ++ visible_strings el ++ l2)%list).
Proof.
  induction n as [s|s|name classes contents IH] using node_induction;
    [simpl; intros []|simpl; intros []|].
  cbn [descendants all_strings visible_strings]. intros H.
  apply in_flat_map in H as (c & Hc & H).
  apply in_split in Hc as (before & after & ->).
  rewrite !flat_map_app. cbn [flat_map].
  apply Forall_app in IH as [_ IH]. apply Forall_inv in IH.
  destruct H as [<-|H].
  - split.
    + exists (flat_map all_strings before), (flat_map all_strings after).
      reflexivity.
    + exists (flat_map visible_strings before),
             (flat_map visible_strings after).
      reflexivity.
  - destruct (IH H) as [(l1 & l2 & ->) (v1 & v2 & ->)]. split.
    + exists (flat_map all_strings before ++ l1)%list,
             (l2 ++ flat_map all_strings after)%list.
      now rewrite <- !app_assoc.
    + exists (flat_map visible_strings before ++ v1)%list,
             (v2 ++ flat_map visible_strings after)%list.
      now rewrite <- !app_assoc.
Qed.

Lemma descendants_get_text (n el : node) :
  In el (descendants n) -> substr (get_text el) (get_text n).
Proof.
  intros H. destruct (descendants_strings _ _ H) as [_ (l1 & l2 & E)].
  unfold get_text. rewrite E. apply concat_all_substr.
Qed.

Lemma descendants_all_strings (n el : node) (t : string) :
  In el (descendants n) -> In t (all_strings el) -> In t (all_strings n).
Proof.
  intros H Ht. destruct (descendants_strings _ _ H) as [(l1 & l2 & E) _].
  rewrite E. apply in_or_app. right. apply in_or_app. now left.
Qed.

Lemma find_all_descendants (p : node -> bool) (n el : node) :
  In el (find_all p n) -> In el (descendants n).
Proof. rewrite find_all_filter. intros H. now apply filter_In in H. Qed.

Lemma firstn_In {A : Type} (k : nat) (l : list A) (x : A) :
  In x (firstn k l) -> In x l.
Proof.
  revert l. induction k as [|k IH]; intros [|y l] H; simpl in *;
    try contradiction.
  destruct H as [H|H]; [now left | right; now apply IH].
Qed.

Lemma structural_candidates_descendants (soup block : node) :
  In block (structural_candidates soup) -> In block (descendants soup).
Proof.
  unfold structural_candidates, potential_items. intros H.
  apply firstn_In in H. apply in_app_or in H as [H|H];
    exact (find_all_descendants _ _ _ H).
Qed.

Lemma spenard_dish_elements_descendants (soup element : node) :
  In element (spenard_dish_elements soup) -> In element (descendants soup).
Proof.
  unfold spenard_dish_elements. destruct (is_nil _); intros H.
  - apply filter_In in H as [H _]. exact (find_all_descendants _ _ _ H).
  - exact (find_all_descendants _ _ _ H).
Qed.

Lemma search_price_substr (s : string) (pm : nat * string) :
  search_price s = Some pm -> substr (snd pm) s.
Proof.
  destruct pm as [i m]. intros H.
  destruct (search_price_offset _ _ _ H) as (Hh & _ & pre & Es & _).
  destruct (price_here_prefix _ _ Hh) as (d & m' & post & _ & _ & Ed & _).
  exists pre, post. simpl. rewrite Es at 1. now rewrite Ed.
Qed.

Lemma first_price_substr (texts : list string) (p : string) :
  first_price texts = Some p -> exists text, In text texts /\ substr p text.
Proof.
  induction texts as [|text rest IH]; simpl; [discriminate|].
  assert (Hrest : first_price rest = Some p ->
                  exists t, (text = t \/ In t rest) /\ substr p t).
  { intros H. destruct (IH H) as (t & Hin & Hs). exists t. auto. }
  destruct (contains "$" text); [|exact Hrest].
  destruct (search_price text) as [pm|] eqn:E; [|exact Hrest].
  intros [= <-]. exists text. split; [now left|].
  exact (search_price_substr _ _ E).
Qed.

Lemma first_nonblank_substr (texts : list string) (n : string) :
  first_nonblank texts = Some n ->
  exists text, In text texts /\ substr n text.
Proof.
  induction texts as [|text rest IH]; simpl; [discriminate|].
  destruct (0 <? String.length (strip text)).
  - intros [= <-]. exists text. split; [now left | apply strip_by_substr].
  - intros H. destruct (IH H) as (t & Hin & Hs). exists t. auto.
Qed.

(** The name of a block lies in the text of its heading, hence in the text
    of the block, or else in one of the block's strings. *)
Lemma extract_name_substr (block : node) (n : string) :
  extract_name block = Some n ->
  substr n (get_text block)
  \/ exists t, In t (all_strings block) /\ substr n t.
Proof.
  unfold extract_name, find.
  destruct (find_all (has_name name_tags) block) as [|el els] eqn:E; simpl.
  - intros H. right. exact (first_nonblank_substr _ _ H).
  - intros [= <-]. left.
    apply (substr_trans _ _ _ (strip_by_substr _ _)).
    apply descendants_get_text. apply (find_all_descendants (has_name name_tags)).
    rewrite E. now left.
Qed.

Lemma structural_record_substr (block : node) (item : MenuItem.t) :
  In item (structural_record block) ->
  (substr (MenuItem.name item) (get_text block)
   \/ exists t, In t (all_strings block) /\ substr (MenuItem.name item) t)
  /\ exists t, In t (all_strings block) /\ substr (MenuItem.price item) t.
Proof.
  unfold structural_record, extract_price.
  destruct (extract_name block) as [n|] eqn:En; [|intros []].
  destruct (first_price (all_strings block)) as [p|] eqn:Ep; [|intros []].
  destruct (truthy (Some n) && truthy (Some p)); [|intros []].
  intros [<-|[]]. simpl. split; [exact (extract_name_substr _ _ En)|].
  exact (first_price_substr _ _ Ep).
Qed.

Lemma search_name_prefix (s g : string) :
  search_name s = Some g -> exists post, s = g ++ post.
Proof.
  revert g. induction s as [|c r IH]; intros g; cbn [search_name].
  - destruct (spaces_dollar_here ""); [|discriminate].
    intros [= <-]. now exists "".
  - destruct (spaces_dollar_here (String c r)).
    + intros [= <-]. now exists (String c r).
    + destruct (is_newline c); [discriminate|].
      destruct (search_name r) as [g'|]; [|discriminate].
      intros [= <-]. destruct (IH _ eq_refl) as [post ->]. now exists post.
Qed.

Lemma parse_menu_text_substr (text : string) (item : MenuItem.t) :
  parse_menu_text text = Some item ->
  substr (MenuItem.name item) text /\ substr (MenuItem.price item) text.
Proof.
  unfold parse_menu_text.
  destruct (search_price text) as [pm|] eqn:Ep; [|discriminate].
  destruct (search_name text) as [g|] eqn:Eg; [|discriminate].
  intros [= <-]. simpl. split; [|exact (search_price_substr _ _ Ep)].
  apply (substr_trans _ _ _ (strip_by_substr _ _)).
  apply search_name_prefix in Eg as [post ->]. apply substr_prefix.
Qed.

Lemma split_head_prefix (sep s : string) :
  exists post, s = nth 0 (split sep s) "" ++ post.
Proof.
  induction s as [|c r [post IH]]; [now exists ""|].
  unfold split in *. cbn [split_go].
  destruct (prefix sep (String c r)).
  - now exists (String c r).
  - rewrite split_go_acc. exists post. simpl.
    destruct (split_go sep 0 "" r) as [|h t]; simpl in *; now rewrite <- IH.
Qed.

Lemma parse_spenard_menu_item_substr (text : string) (item : MenuItem.t) :
  parse_spenard_menu_item text = Some item ->
  substr (MenuItem.name item) text /\ substr (MenuItem.price item) text.
Proof.
  unfold parse_spenard_menu_item.
  destruct (search_price text) as [pm|] eqn:Ep; [|discriminate].
  set (parts := split (snd pm) (strip text)).
  set (name0 := strip_sep (nth 0 parts "")).
  assert (H0 : substr name0 text).
  { apply (substr_trans _ _ _ (strip_by_substr _ _)).
    destruct (split_head_prefix (snd pm) (strip text)) as [post E].
    fold parts in E.
    apply (substr_trans _ (strip text)); [|apply strip_by_substr].
    exists "", post. exact E. }
  assert (H1 : substr (strip (nth 0 (split " - " name0) "")) text).
  { apply (substr_trans _ _ _ (strip_by_substr _ _)).
    destruct (split_head_prefix " - " name0) as [post E].
    apply (substr_trans _ name0); [|exact H0].
    exists "", post. exact E. }
  destruct (is_empty _ && contains " - " name0).
  - destruct (is_empty (strip (strip _))); [discriminate|].
    intros [= <-]. simpl. split; [|exact (search_price_substr _ _ Ep)].
    exact (substr_trans _ _ _ (strip_by_substr _ _) H1).
  - destruct (is_empty (strip name0)); [discriminate|].
    intros [= <-]. simpl. split; [|exact (search_price_substr _ _ Ep)].
    exact (substr_trans _ _ _ (strip_by_substr _ _) H0).
Qed.

Lemma occurs_in_text (a t : string) (soup : node) :
  substr a t -> substr t (get_text soup) -> occurs_in_page a soup.
Proof.
  intros Ha Ht. left. apply contains_iff. exact (substr_trans _ _ _ Ha Ht).
Qed.

Lemma occurs_in_string (a u t : string) (soup : node) :
  substr a u -> substr u t -> In t (all_strings soup) ->
  occurs_in_page a soup.
Proof.
  intros Ha Hu Ht. right. exists t. split; [exact Ht|].
  apply contains_iff. exact (substr_trans _ _ _ Ha Hu).
Qed.

(** X9. Every record that [extract_menu_items] returns is the placeholder,
    or its name and its price both occur in the page, in the text that
    [get_text] gives for it or within one of its strings, a comment or a
    script text included: the extraction makes up no name and no price of
    its own. *)
Theorem name_and_price_from_page
    (soup : node) (restaurant_name : string) (item : MenuItem.t)
    (Hin : In item (extract_menu_items soup restaurant_name)) :
  item = placeholder
  \/ (occurs_in_page (MenuItem.name item) soup
      /\ occurs_in_page (MenuItem.price item) soup).
Proof.
  revert item Hin. apply extract_menu_items_all.
  - now left.
  - intros block item Hb Hi. right.
    apply structural_candidates_descendants in Hb.
    destruct (structural_record_substr _ _ Hi) as [Hn (t & Ht & Hp)]. split.
    + destruct Hn as [Hn|(u & Hu & Hn)].
      * exact (occurs_in_text _ _ _ Hn (descendants_get_text _ _ Hb)).
      * exact (occurs_in_string _ _ _ _ Hn (substr_refl _)
                 (descendants_all_strings _ _ _ Hb Hu)).
    + exact (occurs_in_string _ _ _ _ Hp (substr_refl _)
               (descendants_all_strings _ _ _ Hb Ht)).
  - intros text item Ht Hp. right.
    destruct (parse_menu_text_substr _ _ Hp) as [Hn Hpr].
    split; [exact (occurs_in_string _ _ _ _ Hn (strip_by_substr _ _) Ht)
           | exact (occurs_in_string _ _ _ _ Hpr (strip_by_substr _ _) Ht)].
  - intros element item He Hp. right.
    apply spenard_dish_elements_descendants in He.
    assert (Hs : substr (strip (get_text element)) (get_text soup))
      by exact (substr_trans _ _ _ (strip_by_substr _ _)
                  (descendants_get_text _ _ He)).
    destruct (parse_spenard_menu_item_substr _ _ Hp) as [Hn Hpr].
    split; [exact (occurs_in_text _ _ _ Hn Hs)
           | exact (occurs_in_text _ _ _ Hpr Hs)].
  - intros text item Ht Hp. right.
    destruct (parse_spenard_menu_item_substr _ _ Hp) as [Hn Hpr].
    split; [exact (occurs_in_string _ _ _ _ Hn (strip_by_substr _ _) Ht)
           | exact (occurs_in_string _ _ _ _ Hpr (strip_by_substr _ _) Ht)].
Qed.

Lemma name_and_price_from_page_witness :
  In (MenuItem.mk "cost" "$9" "")
     (extract_menu_items comment_page "Snow City Cafe")
  /\ contains "cost" (get_text comment_page) = false
  /\ (MenuItem.mk "cost" "$9" "" = placeholder
      \/ (occurs_in_page "cost" comment_page
          /\ occurs_in_page "$9" comment_page)).
Proof.
  assert (Hin : In (MenuItem.mk "cost" "$9" "")
                  (extract_menu_items comment_page "Snow City Cafe"))
    by (left; reflexivity).
  split; [exact Hin|]. split; [reflexivity|].
  exact (name_and_price_from_page comment_page "Snow City Cafe" _ Hin).
Defined.

End Provenance.

(** ** Empty names in the text fallback *)

Section EmptyNames.

Lemma strip_by_head (p : ascii -> bool) (t : string) :
  match strip_by p t with
  | EmptyString => True
  | String c _ => p c = false
  end.
Proof.
  unfold strip_by. pose proof (lstrip_by_head p t) as H.
  destruct (lstrip_by p t) as [|c r]; [exact I|]. cbn [rstrip_by].
  rewrite H, andb_false_r. exact H.
Qed.

Lemma search_name_empty (u : string) :
  search_name u = Some "" -> spaces_dollar_here u = true.
Proof.
  destruct u as [|c r]; cbn [search_name].
  - now destruct (spaces_dollar_here "").
  - destruct (spaces_dollar_here (String c r)); [reflexivity|].
    destruct (is_newline c); [discriminate|].
    now destruct (search_name r).
Qed.

(** X12. In the scan of the text nodes by the generic strategy, an accepted
    record has an empty name exactly when the stripped text begins with
    the dollar sign. *)
Theorem text_fallback_empty_name (t : string) (item : MenuItem.t)
    (Haccepted : parse_menu_text (strip t) = Some item) :
  MenuItem.name item = "" <-> exists post, strip t = String "$" post.
Proof.
  pose proof (strip_by_head is_space t) as Hhead. fold (strip t) in Hhead.
  unfold parse_menu_text in Haccepted.
  destruct (search_price (strip t)) as [pm|]; [|discriminate].
  destruct (search_name (strip t)) as [g|] eqn:Eg; [|discriminate].
  injection Haccepted as <-. simpl. split.
  - intros Hname.
    assert (Hg : g = "").
    { destruct g as [|c g']; [reflexivity|]. exfalso.
      destruct (search_name_prefix _ _ Eg) as [post E].
      rewrite E in Hhead. simpl in Hhead.
      unfold strip, strip_by in Hname. cbn [lstrip_by] in Hname.
      rewrite Hhead in Hname. cbn [rstrip_by] in Hname.
      rewrite Hhead, andb_false_r in Hname. discriminate Hname. }
    subst g. apply search_name_empty in Eg. unfold spaces_dollar_here in Eg.
    destruct (strip t) as [|c r]; [discriminate Eg|].
    cbn [lstrip_by] in Eg. rewrite Hhead in Eg.
    apply Ascii.eqb_eq in Eg as ->. now exists r.
  - intros [post E]. rewrite E in Eg. cbn [search_name] in Eg.
    change (spaces_dollar_here (String "$" post)) with true in Eg.
    now injection Eg as <-.
Qed.

Lemma text_fallback_empty_name_witness :
  parse_menu_text (strip " $5.00 ") = Some (MenuItem.mk "" "$5.00" "")
  /\ ("" = "" <-> exists post, strip " $5.00 " = String "$" post).
Proof.
  assert (H : parse_menu_text (strip " $5.00 ")
              = Some (MenuItem.mk "" "$5.00" "")) by reflexivity.
  split; [exact H|].
  exact (text_fallback_empty_name " $5.00 " _ H).
Defined.

End EmptyNames.

(** ** Reading the scraped prices *)

Section ReadingPrices.

Import ValueCalculator.

Lemma numeric_char (c : ascii) :
  is_digit c || Ascii.eqb c "." = true ->
  is_space c = false /\ is_dollar c = false.
Proof.
  destruct c as [[] [] [] [] [] [] [] []]; try discriminate; now split.
Qed.

Lemma all_digits_numeric (ds tail : string) :
  all_digits ds = true -> numeric_chars tail = true ->
  numeric_chars (ds ++ tail) = true.
Proof.
  intros Hd Ht. induction ds as [|c r IH]; [exact Ht|]. simpl in *.
  apply andb_prop in Hd as [Hc Hr]. now rewrite Hc, (IH Hr).
Qed.

Lemma cut_at_dot_append (s : string) :
  s = fst (cut_at_dot s)
      ++ match snd (cut_at_dot s) with
         | Some f => String "." f
         | None => ""
         end.
Proof.
  induction s as [|c r IH]; [reflexivity|]. simpl.
  destruct (Ascii.eqb_spec c ".") as [->|]; [reflexivity|].
  destruct (cut_at_dot r) as [a b]. simpl in *. now rewrite <- IH.
Qed.

Lemma decimal_numeral_numeric (r : string) :
  decimal_numeral r = true -> numeric_chars r = true.
Proof.
  unfold decimal_numeral. pose proof (cut_at_dot_append r) as E.
  destruct (cut_at_dot r) as [a b]. simpl in E. intros H.
  apply andb_prop in H as [H Hb]. apply andb_prop in H as [_ Ha].
  rewrite E. apply (all_digits_numeric _ _ Ha).
  destruct b as [f|]; [|reflexivity].
  apply andb_prop in Hb as [Hf _]. simpl.
  rewrite <- (append_empty_r f). now apply all_digits_numeric.
Qed.

Lemma prefix_dollar (c : ascii) (r : string) :
  prefix "$" (String c r) = is_dollar c.
Proof.
  cbn [prefix]. unfold is_dollar.
  destruct (ascii_dec "$" c) as [<-|N].
  - now destruct r.
  - destruct (Ascii.eqb_spec c "$") as [->|]; [now elim N | reflexivity].
Qed.

Lemma replace_numeric (r : string) :
  numeric_chars r = true -> replace_go "$" "" 0 r = r.
Proof.
  induction r as [|c r IH]; [reflexivity|]. simpl numeric_chars.
  intros H. apply andb_prop in H as [Hc Hr].
  apply numeric_char in Hc as [_ Hd]. cbn [replace_go].
  now rewrite prefix_dollar, Hd, (IH Hr).
Qed.

Lemma rstrip_numeric (r : string) :
  numeric_chars r = true -> rstrip_by is_space r = r.
Proof.
  induction r as [|c r IH]; [reflexivity|]. simpl numeric_chars.
  intros H. apply andb_prop in H as [Hc Hr].
  apply numeric_char in Hc as [Hs _]. cbn [rstrip_by].
  now rewrite Hs, andb_false_r, (IH Hr).
Qed.

Lemma strip_numeric (r : string) : numeric_chars r = true -> strip r = r.
Proof.
  intros H. unfold strip, strip_by.
  replace (lstrip_by is_space r) with r; [now apply rstrip_numeric|].
  destruct r as [|c r']; [reflexivity|]. simpl in H.
  apply andb_prop in H as [Hc _]. apply numeric_char in Hc as [Hs _].
  simpl. now rewrite Hs.
Qed.

Lemma currency_token_numeral (p : string) :
  currency_token_any p = true ->
  exists numeral, p = String "$" numeral /\ decimal_numeral numeral = true.
Proof.
  unfold currency_token_any, currency_token. destruct p as [|c r]; [discriminate|].
  intros H. apply andb_prop in H as [Hc H].
  apply Ascii.eqb_eq in Hc as ->. exists r. split; [reflexivity|].
  unfold decimal_numeral. destruct (cut_at_dot r) as [a b]. exact H.
Qed.

Lemma price_numeral_dollar (numeral : string) :
  decimal_numeral numeral = true ->
  price_numeral (String "$" numeral) = numeral.
Proof.
  intros H. apply decimal_numeral_numeric in H.
  unfold price_numeral, replace. cbn [replace_go].
  rewrite prefix_dollar. simpl.
  now rewrite (replace_numeric _ H), (strip_numeric _ H).
Qed.

Variable F : Type.
Variable float : string -> option F.
Variable zero : F.

(** X13. The price of every record that [extract_menu_items] returns is a
    dollar sign before a plain decimal numeral, and [parse_price] hands
    exactly that numeral to [float]: the dollar sign is gone and nothing
    else is removed or left over. *)
Theorem scraped_price_read_as_numeral
    (soup : node) (restaurant_name : string) (item : MenuItem.t)
    (Hin : In item (extract_menu_items soup restaurant_name)) :
  exists numeral,
    MenuItem.price item = String "$" numeral
    /\ decimal_numeral numeral = true
    /\ price_numeral (MenuItem.price item) = numeral
    /\ parse_price F float zero (MenuItem.price item)
       = match float numeral with
         | Some x => x
         | None => zero
         end.
Proof.
  assert (Ht : currency_token_any (MenuItem.price item) = true).
  { unfold extract_menu_items in Hin. destruct (is_spenard restaurant_name).
    - exact (extract_spenard_menu_items_price _ _ Hin).
    - exact (generic_run_price _ _ Hin). }
  destruct (currency_token_numeral _ Ht) as (numeral & E & Hn).
  exists numeral. unfold parse_price.
  rewrite E, (price_numeral_dollar _ Hn). auto.
Qed.

End ReadingPrices.

Lemma scraped_price_read_as_numeral_witness :
  In (MenuItem.mk "Soup" "$9.5" "")
     (extract_menu_items one_decimal_page "Snow City Cafe")
  /\ exists numeral,
       "$9.5" = String "$" numeral
       /\ ValueCalculator.decimal_numeral numeral = true
       /\ ValueCalculator.price_numeral "$9.5" = numeral
       /\ ValueCalculator.parse_price (option string) (fun s => Some (Some s))
            None "$9.5"
          = Some numeral.
Proof.
  assert (Hin : In (MenuItem.mk "Soup" "$9.5" "")
                  (extract_menu_items one_decimal_page "Snow City Cafe"))
    by (left; reflexivity).
  split; [exact Hin|].
  exact (scraped_price_read_as_numeral (option string) (fun s => Some (Some s))
           None one_decimal_page "Snow City Cafe" _ Hin).
Defined.
